(** * Claim-trie chain commands: change extraction and replay

    A shallow embedding of [claimtrie/cmd/cmd/chain.go]: the extractor
    ([processBlock]), the converter pipeline ([getBlock], [processBlock],
    [saveChanges]) and the replay command ([NewChainReplayCommand],
    [appendBlock]).  The goroutines of the converter communicate only through
    FIFO channels, so each stage is modelled as a function over the sequence
    of values that flows through its channel. *)

From Stdlib Require Import ZArith List Lia Sorting.Sorted.
From stdpp Require Import base gmap list.
Import ListNotations.

(* ------------------------------------------------------------------ *)
(** ** Data model *)

(** [chainhash.Hash]: 32 bytes, kept as a 256-bit integer. *)
Definition Hash := Z.

(** [wire.OutPoint]: transaction hash and output index. *)
Definition OutPoint := (Hash * Z)%type.

Definition Script := list Byte.byte.

(** [change.ChangeType]; [OtherChangeType] stands for any other value of
    the underlying integer (reachable through a corrupted store). *)
Inductive ChangeType :=
| AddClaim
| SpendClaim
| UpdateClaim
| AddSupport
| SpendSupport
| OtherChangeType (v : Z).

(** [change.ClaimID] is a [20]byte array. *)
Definition ClaimIDSize : nat := 20.
Definition ClaimID := list Byte.byte.
Definition zeroClaimID : ClaimID := repeat Byte.x00 ClaimIDSize.

(** Go's [copy(dst, src)]: copies [min(len dst, len src)] elements. *)
Definition goCopy (dst src : list Byte.byte) : list Byte.byte :=
  firstn (length dst) src ++ skipn (length src) dst.

(** [change.Change] *)
Record Change := mkChange {
  chg_Height : Z;
  chg_Type : ChangeType;
  chg_Name : list Byte.byte;
  chg_OutPoint : OutPoint;
  chg_ClaimID : ClaimID;
  chg_Amount : Z
}.

(** [wire.TxOut] *)
Record TxOut := mkTxOut { txout_Value : Z; txout_PkScript : Script }.

(** A transaction: its hash, the previous outpoints of its inputs and its
    outputs. *)
Record Tx := mkTx {
  tx_Hash : Hash;
  tx_TxIn : list OutPoint;
  tx_TxOut : list TxOut
}.

(** A block: height, the [ClaimTrie] field of its header, transactions. *)
Record Block := mkBlock {
  blk_Height : Z;
  blk_ClaimTrie : Hash;
  blk_Transactions : list Tx
}.

(** Opcodes of a decoded claim script ([txscript.ClaimScript.Opcode]). *)
Inductive ClaimOpcode := OP_CLAIMNAME | OP_SUPPORTCLAIM | OP_UPDATECLAIM.

Record ClaimScript := mkClaimScript {
  cs_Opcode : ClaimOpcode;
  cs_Name : list Byte.byte;
  cs_ClaimID : list Byte.byte
}.

(** Modelled from the spec: the result of [txscript.DecodeClaimScript]
    (the decoder is not part of src/).  A script is either a claim script,
    not a claim script at all ([ErrNotClaimScript]), or claim-shaped but
    malformed; on an error the Go function returns a nil [*ClaimScript]. *)
Inductive DecodeResult :=
| DecodeOk (cs : ClaimScript)
| ErrNotClaimScript
| ErrMalformedClaimScript.

(** Modelled from the spec: an entry of [blockchain.UtxoViewpoint]. *)
Record UtxoEntry := mkUtxoEntry {
  ue_Amount : Z;
  ue_PkScript : Script;
  ue_Height : Z
}.

Abbreviation View := (gmap OutPoint UtxoEntry).

(** Operations on the unspent-output view, in the order they happen. *)
Inductive ViewEvent :=
| EvAddTxOuts (h : Hash)
| EvLookupEntry (op : OutPoint).

(** A Go runtime panic: a method called on a nil pointer. *)
Inductive PanicReason :=
| NilUtxoEntry (op : OutPoint)
| NilClaimScript.

Inductive Outcome (A : Type) :=
| Done (a : A)
| Panic (p : PanicReason).
Arguments Done {A} a.
Arguments Panic {A} p.

(** Modelled from the spec: [view.AddTxOuts(tx, height)] registers every
    output of the transaction under the outpoint [(tx hash, index)]. *)
Fixpoint addTxOutsFrom (h : Hash) (height : Z) (i : Z) (outs : list TxOut)
    (view : View) : View :=
  match outs with
  | [] => view
  | o :: rest =>
      addTxOutsFrom h height (i + 1) rest
        (<[(h, i) := mkUtxoEntry (txout_Value o) (txout_PkScript o) height]> view)
  end.

Definition AddTxOuts (tx : Tx) (height : Z) (view : View) : View :=
  addTxOutsFrom (tx_Hash tx) height 0 (tx_TxOut tx) view.

(* ------------------------------------------------------------------ *)
(** ** The extractor: [chainConverter.processBlock] *)

Section Extractor.

Variable DecodeClaimScript : Script -> DecodeResult.
Variable NewClaimID : OutPoint -> ClaimID.
Variable IsCoinBase : Tx -> bool.

(** The loop over [tx.MsgTx().TxIn]. *)
Fixpoint processTxIns (height : Z) (ins : list OutPoint) (view : View)
    (evs : list ViewEvent) (changes : list Change)
    : Outcome (list ViewEvent * list Change) :=
  match ins with
  | [] => Done (evs, changes)
  | op :: rest =>
      let evs := evs ++ [EvLookupEntry op] in
      match view !! op with
      | None => Panic (NilUtxoEntry op)  (* log.Criticalf, then e.PkScript() *)
      | Some e =>
          match DecodeClaimScript (ue_PkScript e) with
          | ErrNotClaimScript => processTxIns height rest view evs changes
          | ErrMalformedClaimScript =>
              Panic NilClaimScript       (* log.Criticalf, then cs.Name() *)
          | DecodeOk cs =>
              let chg :=
                match cs_Opcode cs with
                | OP_CLAIMNAME =>
                    mkChange height SpendClaim (cs_Name cs) op (NewClaimID op) 0
                | OP_UPDATECLAIM =>
                    mkChange height SpendClaim (cs_Name cs) op
                      (goCopy zeroClaimID (cs_ClaimID cs)) 0
                | OP_SUPPORTCLAIM =>
                    mkChange height SpendSupport (cs_Name cs) op
                      (goCopy zeroClaimID (cs_ClaimID cs)) 0
                end in
              processTxIns height rest view evs (changes ++ [chg])
          end
      end
  end.

(** The loop over [tx.MsgTx().TxOut]; [i] is the output index. *)
Fixpoint processTxOuts (height : Z) (h : Hash) (i : Z) (outs : list TxOut)
    (changes : list Change) : Outcome (list Change) :=
  match outs with
  | [] => Done changes
  | txOut :: rest =>
      match DecodeClaimScript (txout_PkScript txOut) with
      | ErrNotClaimScript => processTxOuts height h (i + 1) rest changes
      | ErrMalformedClaimScript => Panic NilClaimScript  (* cs.Name() on nil *)
      | DecodeOk cs =>
          let op := (h, i) in
          let chg :=
            match cs_Opcode cs with
            | OP_CLAIMNAME =>
                mkChange height AddClaim (cs_Name cs) op (NewClaimID op)
                  (txout_Value txOut)
            | OP_SUPPORTCLAIM =>
                mkChange height AddSupport (cs_Name cs) op
                  (goCopy zeroClaimID (cs_ClaimID cs)) (txout_Value txOut)
            | OP_UPDATECLAIM =>
                mkChange height UpdateClaim (cs_Name cs) op
                  (goCopy zeroClaimID (cs_ClaimID cs)) (txout_Value txOut)
            end in
          processTxOuts height h (i + 1) rest (changes ++ [chg])
      end
  end.

(** One iteration of [for _, tx := range block.Transactions()]. *)
Definition processTx (height : Z) (tx : Tx)
    (st : View * list ViewEvent * list Change)
    : Outcome (View * list ViewEvent * list Change) :=
  let '(view, evs, changes) := st in
  let view := AddTxOuts tx height view in
  let evs := evs ++ [EvAddTxOuts (tx_Hash tx)] in
  if IsCoinBase tx then Done (view, evs, changes)
  else
    match processTxIns height (tx_TxIn tx) view evs changes with
    | Panic p => Panic p
    | Done (evs, changes) =>
        match processTxOuts height (tx_Hash tx) 0 (tx_TxOut tx) changes with
        | Panic p => Panic p
        | Done changes => Done (view, evs, changes)
        end
    end.

Fixpoint processTxs (height : Z) (txs : list Tx)
    (st : View * list ViewEvent * list Change)
    : Outcome (View * list ViewEvent * list Change) :=
  match txs with
  | [] => Done st
  | tx :: rest =>
      match processTx height tx st with
      | Panic p => Panic p
      | Done st' => processTxs height rest st'
      end
  end.

(** The body of [for block := range cb.blockChan]: the changes of one
    block, the updated view and the view operations performed. *)
Definition processOneBlock (block : Block) (view : View)
    : Outcome (View * list ViewEvent * list Change) :=
  processTxs (blk_Height block) (blk_Transactions block) (view, [], []).

(** The extract stage: the batches pushed onto [changesChan], and the panic
    that ended it, if any.  One view is threaded through all blocks. *)
Fixpoint processBlocks (blocks : list Block) (view : View)
    (pushed : list (list Change)) : list (list Change) * option PanicReason :=
  match blocks with
  | [] => (pushed, None)
  | block :: rest =>
      match processOneBlock block view with
      | Panic p => (pushed, Some p)
      | Done (view', _, changes) =>
          processBlocks rest view'
            (if length changes =? 0 then pushed else pushed ++ [changes])%nat
      end
  end.

End Extractor.

(* ------------------------------------------------------------------ *)
(** ** The converter pipeline: [getBlock], [saveChanges], [convert] *)

(** [toHeight] of [getBlock]: the constant 200000, lowered to the best
    snapshot height of the chain when that is smaller. *)
Definition getBlockToHeight (bestHeight : Z) : Z :=
  let toHeight := 200000%Z in
  if (toHeight >? bestHeight)%Z then bestHeight else toHeight.

(** [for ht := int32(0); ht < toHeight; ht++]: the heights passed to
    [BlockByHeight] and the blocks pushed onto [blockChan]; a read failure
    ends the loop. *)
Fixpoint fetchLoop (BlockByHeight : Z -> option Block) (fuel : nat) (ht : Z)
    : list Z * list Block :=
  match fuel with
  | O => ([], [])
  | S fuel' =>
      match BlockByHeight ht with
      | None => ([ht], [])
      | Some block =>
          let '(hs, bs) := fetchLoop BlockByHeight fuel' (ht + 1) in
          (ht :: hs, block :: bs)
      end
  end.

Definition getBlock (BlockByHeight : Z -> option Block) (bestHeight : Z)
    : list Z * list Block :=
  let toHeight := getBlockToHeight bestHeight in
  fetchLoop BlockByHeight (Z.to_nat (toHeight - 0)) 0.

Inductive SaveError :=
| SaveIndexOutOfRange   (* changes[0] on an empty slice *)
| SaveFailed.

(** The persist stage: the [chainRepo.Save] calls made, in order, and the
    failure that ended the stage.  [Save] returns the new store or [None]. *)
Fixpoint saveChanges {S : Type} (Save : S -> Z -> list Change -> option S)
    (store : S) (batches : list (list Change))
    : list (Z * list Change) * option SaveError :=
  match batches with
  | [] => ([], None)
  | changes :: rest =>
      match changes with
      | [] => ([], Some SaveIndexOutOfRange)
      | c0 :: _ =>
          match Save store (chg_Height c0) changes with
          | None => ([(chg_Height c0, changes)], Some SaveFailed)
          | Some store' =>
              let '(calls, r) := saveChanges Save store' rest in
              ((chg_Height c0, changes) :: calls, r)
          end
      end
  end.

(** How the persist stage ended early. *)
Inductive SaveStageError :=
| SaveErrOpenChainRepo            (* chainrepo.NewPebble failed *)
| SaveErrSave (e : SaveError).

(** [chainConverter.saveChanges] with the opening of the chain repo:
    [OpenChainRepo] is the outcome of [chainrepo.NewPebble]. *)
Definition saveStage {S : Type} (OpenChainRepo : bool)
    (Save : S -> Z -> list Change -> option S) (store : S)
    (batches : list (list Change)) : list (Z * list Change) * option SaveStageError :=
  if OpenChainRepo then
    let '(calls, r) := saveChanges Save store batches in
    (calls, match r with None => None | Some e => Some (SaveErrSave e) end)
  else ([], Some SaveErrOpenChainRepo).

(** [NewChainConvertCommand] with flag value [height]: the three stages
    joined by their channels, starting from an empty view.  As in the source,
    the flag is not handed to the converter. *)
Definition convertCommand {S : Type} (DecodeClaimScript : Script -> DecodeResult)
    (NewClaimID : OutPoint -> ClaimID) (IsCoinBase : Tx -> bool)
    (BlockByHeight : Z -> option Block) (bestHeight : Z)
    (Save : S -> Z -> list Change -> option S) (store : S) (height : Z)
    : list Z * list (Z * list Change) :=
  let '(reads, blocks) := getBlock BlockByHeight bestHeight in
  let '(batches, _) :=
    processBlocks DecodeClaimScript NewClaimID IsCoinBase blocks ∅ [] in
  (reads, fst (saveChanges Save store batches)).

(* ------------------------------------------------------------------ *)
(** ** The replay command: [NewChainReplayCommand] and [appendBlock] *)

(** The operations of [*claimtrie.ClaimTrie] used by the replay command; a
    failing operation returns [None] (a non-nil Go error). *)
Record ClaimTrieOps (T : Type) := {
  ct_AddClaim : T -> list Byte.byte -> OutPoint -> ClaimID -> Z -> option T;
  ct_UpdateClaim : T -> list Byte.byte -> OutPoint -> Z -> ClaimID -> option T;
  ct_SpendClaim : T -> list Byte.byte -> OutPoint -> ClaimID -> option T;
  ct_AddSupport : T -> list Byte.byte -> OutPoint -> Z -> ClaimID -> option T;
  ct_SpendSupport : T -> list Byte.byte -> OutPoint -> ClaimID -> option T;
  ct_AppendBlock : T -> option T;
  ct_Height : T -> Z;
  ct_MerkleHash : T -> Hash
}.
Arguments ct_AddClaim {T} _.
Arguments ct_UpdateClaim {T} _.
Arguments ct_SpendClaim {T} _.
Arguments ct_AddSupport {T} _.
Arguments ct_SpendSupport {T} _.
Arguments ct_AppendBlock {T} _.
Arguments ct_Height {T} _.
Arguments ct_MerkleHash {T} _.

(** The repositories under [claim_dbs]. *)
Inductive Repo := BlockRepo | NodeRepo | MerkleTrieRepo | TemporalRepo | ChainRepo.

(** [cfg.BlockRepoPebble], [NodeRepoPebble], [MerkleTrieRepoPebble] and
    [TemporalRepoPebble], in the order of the source. *)
Definition derivedRepos : list Repo :=
  [BlockRepo; NodeRepo; MerkleTrieRepo; TemporalRepo].

(** [chainRepo.Load(height)]: the stored batch, [pebble.ErrNotFound], or any
    other failure. *)
Inductive LoadResult :=
| Loaded (changes : list Change)
| LoadErrNotFound
| LoadFailed.

(** The side effects of the replay command, in order. *)
Inductive Effect :=
| EffRemoveAll (r : Repo)
| EffOpenRepo (r : Repo)
| EffNewClaimTrie
| EffLoadBlocksDB
| EffLoadChain
| EffLoad (height : Z)               (* chainRepo.Load *)
| EffExecute (t : ChangeType)        (* ct.AddClaim, ..., ct.SpendSupport *)
| EffAppendBlock                     (* ct.AppendBlock *)
| EffBlockByHeight (height : Z).     (* chain.BlockByHeight *)

Inductive ReplayError :=
| ErrDeleteRepo (r : Repo)
| ErrOpenChainRepo
| ErrCreateClaimTrie
| ErrLoadBlocksDB
| ErrLoadChain
| ErrLoadChanges (ht : Z)
| ErrExecuteChange (chg : Change)
| ErrAppendBlock
| ErrLoadFromBlockRepo
| ErrHashMismatch (height : Z).

(** The environment of one run: results of the file system, the chain repo,
    the block database and [claimtrie.New]. *)
Record ReplayEnv (T : Type) := {
  env_RemoveAll : Repo -> bool;
  env_OpenChainRepo : bool;
  env_NewClaimTrie : option T;
  env_LoadBlocksDB : bool;
  env_LoadChain : bool;
  env_Load : Z -> LoadResult;
  env_BlockByHeight : Z -> option Block
}.
Arguments env_RemoveAll {T} _.
Arguments env_OpenChainRepo {T} _.
Arguments env_NewClaimTrie {T} _.
Arguments env_LoadBlocksDB {T} _.
Arguments env_LoadChain {T} _.
Arguments env_Load {T} _.
Arguments env_BlockByHeight {T} _.

Section Replay.

Context {T : Type} (ct : ClaimTrieOps T) (env : ReplayEnv T).

(** The [switch chg.Type] of the replay loop. *)
Definition executeChange (t : T) (chg : Change) : option T :=
  match chg_Type chg with
  | AddClaim => ct_AddClaim ct t (chg_Name chg) (chg_OutPoint chg) (chg_ClaimID chg) (chg_Amount chg)
  | UpdateClaim => ct_UpdateClaim ct t (chg_Name chg) (chg_OutPoint chg) (chg_Amount chg) (chg_ClaimID chg)
  | SpendClaim => ct_SpendClaim ct t (chg_Name chg) (chg_OutPoint chg) (chg_ClaimID chg)
  | AddSupport => ct_AddSupport ct t (chg_Name chg) (chg_OutPoint chg) (chg_Amount chg) (chg_ClaimID chg)
  | SpendSupport => ct_SpendSupport ct t (chg_Name chg) (chg_OutPoint chg) (chg_ClaimID chg)
  | OtherChangeType _ => None        (* "invalid change type" *)
  end.

(** [for _, chg := range changes]. *)
Fixpoint applyChanges (t : T) (changes : list Change) (effs : list Effect)
    : list Effect * (T + ReplayError) :=
  match changes with
  | [] => (effs, inl t)
  | chg :: rest =>
      let effs := match chg_Type chg with
                  | OtherChangeType _ => effs
                  | ty => effs ++ [EffExecute ty]
                  end in
      match executeChange t chg with
      | None => (effs, inr (ErrExecuteChange chg))
      | Some t' => applyChanges t' rest effs
      end
  end.

(** [appendBlock(ct, chain)]. *)
Definition appendBlock (t : T) (effs : list Effect)
    : list Effect * (T + ReplayError) :=
  let effs := effs ++ [EffAppendBlock] in
  match ct_AppendBlock ct t with
  | None => (effs, inr ErrAppendBlock)
  | Some t' =>
      let effs := effs ++ [EffBlockByHeight (ct_Height ct t')] in
      match env_BlockByHeight env (ct_Height ct t') with
      | None => (effs, inr ErrLoadFromBlockRepo)
      | Some block =>
          if Z.eqb (ct_MerkleHash ct t') (blk_ClaimTrie block)
          then (effs, inl t')
          else (effs, inr (ErrHashMismatch (ct_Height ct t')))
      end
  end.

(** Apply a loaded batch, then [appendBlock]. *)
Definition applyAndAppend (t : T) (changes : list Change) (effs : list Effect)
    : list Effect * (T + ReplayError) :=
  match applyChanges t changes effs with
  | (effs, inr e) => (effs, inr e)
  | (effs, inl t') => appendBlock t' effs
  end.

(** The body of [for ht := fromHeight; ht < toHeight; ht++]. *)
Definition replayStep (ht : Z) (t : T) (effs : list Effect)
    : list Effect * (T + ReplayError) :=
  let effs := effs ++ [EffLoad (ht + 1)] in
  match env_Load env (ht + 1) with
  | LoadErrNotFound => applyAndAppend t [] effs     (* do nothing: no changes *)
  | LoadFailed => (effs, inr (ErrLoadChanges ht))
  | Loaded changes => applyAndAppend t changes effs
  end.

Fixpoint replayLoop (n : nat) (ht : Z) (t : T) (effs : list Effect)
    : list Effect * (T + ReplayError) :=
  match n with
  | O => (effs, inl t)
  | S n' =>
      match replayStep ht t effs with
      | (effs', inr e) => (effs', inr e)
      | (effs', inl t') => replayLoop n' (ht + 1) t' effs'
      end
  end.

(** Deleting the derived-state repositories, stopping at the first failure. *)
Fixpoint removeRepos (rs : list Repo) (effs : list Effect)
    : list Effect * option ReplayError :=
  match rs with
  | [] => (effs, None)
  | r :: rest =>
      let effs := effs ++ [EffRemoveAll r] in
      if env_RemoveAll env r then removeRepos rest effs
      else (effs, Some (ErrDeleteRepo r))
  end.

(** The [RunE] function of the replay command. *)
Definition replayCommand (fromHeight toHeight : Z)
    : list Effect * option ReplayError :=
  match removeRepos derivedRepos [] with
  | (effs, Some e) => (effs, Some e)
  | (effs, None) =>
      let effs := effs ++ [EffOpenRepo ChainRepo] in
      if negb (env_OpenChainRepo env) then (effs, Some ErrOpenChainRepo) else
      let effs := effs ++ [EffNewClaimTrie] in
      match env_NewClaimTrie env with
      | None => (effs, Some ErrCreateClaimTrie)
      | Some t =>
          let effs := effs ++ [EffLoadBlocksDB] in
          if negb (env_LoadBlocksDB env) then (effs, Some ErrLoadBlocksDB) else
          let effs := effs ++ [EffLoadChain] in
          if negb (env_LoadChain env) then (effs, Some ErrLoadChain) else
          match replayLoop (Z.to_nat (toHeight - fromHeight)) fromHeight t effs with
          | (effs, inl _) => (effs, None)
          | (effs, inr e) => (effs, Some e)
          end
      end
  end.

End Replay.

(* ------------------------------------------------------------------ *)
(** ** The dump command: [NewChainDumpCommand] *)

Definition MaxInt32 : Z := 2147483647.

(** [height++] on an [int32]: two's-complement wrap-around. *)
Definition int32Inc (z : Z) : Z := ((z + 1 + 2 ^ 31) mod 2 ^ 32) - 2 ^ 31.

Definition inInt32 (z : Z) : Prop := (- 2 ^ 31 <= z <= MaxInt32)%Z.

Inductive DumpError :=
| DumpErrOpenChainRepo
| DumpErrLoad (height : Z).

(** [for height := fromHeight; height <= toHeight; height++]: the changes
    shown ([showChange]) and how the loop ended; [None] when the loop is
    still running after [fuel] iterations. *)
Fixpoint dumpLoop (Load : Z -> LoadResult) (fuel : nat) (height toHeight : Z)
    (shown : list Change) : option (list Change * option DumpError) :=
  match fuel with
  | O => None
  | S fuel' =>
      if (height <=? toHeight)%Z then
        match Load height with
        | LoadErrNotFound => dumpLoop Load fuel' (int32Inc height) toHeight shown
        | LoadFailed => Some (shown, Some (DumpErrLoad height))
        | Loaded changes =>
            dumpLoop Load fuel' (int32Inc height) toHeight (shown ++ changes)
        end
      else Some (shown, None)
  end.

(** The [RunE] function of the dump command. *)
Definition dumpCommand (OpenChainRepo : bool) (Load : Z -> LoadResult) (fuel : nat)
    (fromHeight toHeight : Z) : option (list Change * option DumpError) :=
  if OpenChainRepo then dumpLoop Load fuel fromHeight toHeight []
  else Some ([], Some DumpErrOpenChainRepo).

(* ------------------------------------------------------------------ *)
(** ** Auxiliary predicates used in the statements *)

Definition isSpendType (ty : ChangeType) : bool :=
  match ty with SpendClaim | SpendSupport => true | _ => false end.

Definition isCreateType (ty : ChangeType) : bool :=
  match ty with AddClaim | UpdateClaim | AddSupport => true | _ => false end.

(** The heights loaded from the chain repo, in order. *)
Definition loadsOf (effs : list Effect) : list Z :=
  flat_map (fun e => match e with EffLoad h => [h] | _ => [] end) effs.

(** Effects that neither delete a repository nor open one other than the
    chain repo. *)
Definition readOnlyEffect (e : Effect) : bool :=
  match e with
  | EffRemoveAll _ => false
  | EffOpenRepo ChainRepo => true
  | EffOpenRepo _ => false
  | _ => true
  end.

(** The changes a transaction contributes from its inputs: spends of its
    previous outpoints, at the block height. *)
Definition spendSide (height : Z) (tx : Tx) (s : list Change) : Prop :=
  Forall (fun c => isSpendType (chg_Type c) = true /\
                   In (chg_OutPoint c) (tx_TxIn tx) /\ chg_Height c = height) s.

(** The changes a transaction contributes from its outputs: creations at
    its own outpoints, at the block height. *)
Definition createSide (height : Z) (tx : Tx) (c : list Change) : Prop :=
  Forall (fun c => isCreateType (chg_Type c) = true /\
                   fst (chg_OutPoint c) = tx_Hash tx /\ chg_Height c = height) c.

(** The batch a load yields to a reader that treats not-found as empty. *)
Definition batchOf (r : LoadResult) : list Change :=
  match r with Loaded changes => changes | _ => [] end.

(** The change a spend of a claim-bearing output yields, by the type of the
    change that created it. *)
Definition spendTypeOf (ty : ChangeType) : ChangeType :=
  match ty with
  | AddClaim | UpdateClaim => SpendClaim
  | AddSupport => SpendSupport
  | other => other
  end.

(** The key [saveChanges] saves a batch under: [changes[0].Height]. *)
Definition batchKey (changes : list Change) : Z :=
  match changes with c0 :: _ => chg_Height c0 | [] => 0%Z end.

(** The previous outpoints of all inputs of a block's transactions. *)
Definition blockInputs (block : Block) : list OutPoint :=
  concat (map tx_TxIn (blk_Transactions block)).

(** What the extractor produces for a block: the view operations and the
    changes, or the panic that ended it. *)
Definition changesOf (o : Outcome (View * list ViewEvent * list Change))
    : Outcome (list ViewEvent * list Change) :=
  match o with
  | Done (_, evs, chs) => Done (evs, chs)
  | Panic p => Panic p
  end.

(** Saving [batches] in turn, each under [batchKey], with every [Save]
    succeeding: the final store, or [None] when some [Save] fails. *)
Fixpoint saveAll {S : Type} (Save : S -> Z -> list Change -> option S) (store : S)
    (batches : list (list Change)) : option S :=
  match batches with
  | [] => Some store
  | b :: rest =>
      match Save store (batchKey b) b with
      | Some store' => saveAll Save store' rest
      | None => None
      end
  end.

(** A script claim ID stored in a 20-byte field: cut to its first 20 bytes,
    or followed by zero bytes up to 20. *)
Definition claimIDCopy (src : list Byte.byte) : ClaimID :=
  firstn ClaimIDSize src ++ repeat Byte.x00 (ClaimIDSize - length src).

(** The integers [a], [a+1], ..., [a+n-1]. *)
Definition zrange (a : Z) (n : nat) : list Z :=
  map (fun k => a + Z.of_nat k)%Z (seq 0 n).

(* ------------------------------------------------------------------ *)
(** ** Concrete fixtures for the witnesses *)

Module Fixture.

Local Open Scope Z_scope.

(** A toy decoder: the first byte selects the opcode. *)
Definition claimIdA : ClaimID := repeat Byte.x07 ClaimIDSize.

Definition decode (s : Script) : DecodeResult :=
  match s with
  | Byte.x01 :: name => DecodeOk (mkClaimScript OP_CLAIMNAME name [])
  | Byte.x02 :: name => DecodeOk (mkClaimScript OP_UPDATECLAIM name claimIdA)
  | Byte.x03 :: name => DecodeOk (mkClaimScript OP_SUPPORTCLAIM name claimIdA)
  | Byte.x09 :: _ => ErrMalformedClaimScript
  | _ => ErrNotClaimScript
  end.

Definition newClaimID (op : OutPoint) : ClaimID := repeat Byte.xff ClaimIDSize.

(** [blockchain.IsCoinBase]: one input spending the null outpoint. *)
Definition isCoinBase (tx : Tx) : bool :=
  match tx_TxIn tx with
  | [(h, i)] => Z.eqb h 0 && Z.eqb i 4294967295
  | _ => false
  end.

Definition coinbase (h : Hash) : Tx :=
  mkTx h [(0, 4294967295)%Z] [mkTxOut 50 [Byte.x00]].

(** Block 1 creates a claim; block 2 spends it and creates an update and a
    plain output. *)
Definition tx11 : Tx := mkTx 11 [(100, 0)] [mkTxOut 10 [Byte.x01; Byte.x61]].
Definition tx21 : Tx :=
  mkTx 21 [(11, 0)] [mkTxOut 7 [Byte.x02; Byte.x61]; mkTxOut 3 [Byte.x00]].
Definition block1 : Block := mkBlock 1 0 [coinbase 100; tx11].
Definition block2 : Block := mkBlock 2 0 [coinbase 200; tx21].

Definition stateOf (o : Outcome (View * list ViewEvent * list Change))
    : View * list ViewEvent * list Change :=
  match o with Done st => st | Panic _ => (∅, [], []) end.

(** The view after block 1, and the result of block 2 on it. *)
Definition view1 : View :=
  (stateOf (processOneBlock decode newClaimID isCoinBase block1 ∅)).1.1.
Definition result2 : View * list ViewEvent * list Change :=
  stateOf (processOneBlock decode newClaimID isCoinBase block2 view1).
Definition resultTx21 : View * list ViewEvent * list Change :=
  stateOf (processTx decode newClaimID isCoinBase 2 tx21 (view1, [], [])).

(** The view after block 1 with its two entries inserted in the other
    order, and a view holding only the entry at [(11, 0)]. *)
Definition view1r : View :=
  <[(11, 0) := mkUtxoEntry 10 [Byte.x01; Byte.x61] 1]>
    (<[(100, 0) := mkUtxoEntry 50 [Byte.x00] 1]> ∅).
Definition viewOnly11 : View :=
  <[(11, 0) := mkUtxoEntry 10 [Byte.x01; Byte.x61] 1]> ∅.

(** Block 3 spends the claim of block 1 and has a malformed claim output. *)
Definition block3 : Block :=
  mkBlock 3 0 [mkTx 31 [(11, 0)] [mkTxOut 1 [Byte.x09]]].

Definition batch1 : list Change :=
  [mkChange 1 AddClaim [Byte.x61] (11, 0) (newClaimID (11, 0)) 10].

Definition chainAt (ht : Z) : option Block :=
  if Z.eqb ht 0 then Some (mkBlock 0 0 [coinbase 1])
  else if Z.eqb ht 1 then Some block1
  else if Z.eqb ht 2 then Some block2
  else None.

Definition blockAt (ht : Z) : option Block :=
  Some (mkBlock ht (10 * ht) []).

Definition store_save (s : list Z) (h : Z) (_ : list Change) : option (list Z) :=
  Some (h :: s).

(** A store whose save of height 2 fails. *)
Definition store_fail2 (s : list Z) (h : Z) (_ : list Change) : option (list Z) :=
  if Z.eqb h 2 then None else Some (h :: s).

(** A trie whose state is its height; its hash is ten times the height. *)
Definition trie : ClaimTrieOps Z := {|
  ct_AddClaim := fun t _ _ _ _ => Some t;
  ct_UpdateClaim := fun t _ _ _ _ => Some t;
  ct_SpendClaim := fun t _ _ _ => Some t;
  ct_AddSupport := fun t _ _ _ _ => Some t;
  ct_SpendSupport := fun t _ _ _ => Some t;
  ct_AppendBlock := fun t => Some (t + 1)%Z;
  ct_Height := fun t => t;
  ct_MerkleHash := fun t => (10 * t)%Z
|}.

(** A ledger whose header at height 3 disagrees with the trie. *)
Definition env (load : Z -> LoadResult) : ReplayEnv Z := {|
  env_RemoveAll := fun _ => true;
  env_OpenChainRepo := true;
  env_NewClaimTrie := Some 0%Z;
  env_LoadBlocksDB := true;
  env_LoadChain := true;
  env_Load := load;
  env_BlockByHeight := fun ht =>
    Some (mkBlock ht (if Z.eqb ht 3 then 0 else 10 * ht) [])
|}.

Definition oneClaim (h : Z) : list Change :=
  [mkChange h AddClaim [Byte.x61] (h, 0)%Z claimIdA 10].

Definition load (h : Z) : LoadResult :=
  if Z.eqb h 2 then LoadErrNotFound
  else if Z.eqb h 4 then LoadFailed
  else Loaded (oneClaim h).

(** A decoder whose support and update scripts carry claim IDs of 1 and
    25 bytes. *)
Definition decodeOdd (s : Script) : DecodeResult :=
  match s with
  | Byte.x04 :: name => DecodeOk (mkClaimScript OP_SUPPORTCLAIM name [Byte.x07])
  | Byte.x05 :: name => DecodeOk (mkClaimScript OP_UPDATECLAIM name (repeat Byte.x08 25))
  | _ => ErrNotClaimScript
  end.

Definition tx41 : Tx :=
  mkTx 41 [(40, 0)] [mkTxOut 1 [Byte.x04; Byte.x61]; mkTxOut 2 [Byte.x05; Byte.x61]].
Definition view40 : View := <[(40, 0) := mkUtxoEntry 5 [Byte.x05; Byte.x62] 3]> ∅.
Definition resultTx41 : View * list ViewEvent * list Change :=
  stateOf (processTx decodeOdd newClaimID isCoinBase 4 tx41 (view40, [], [])).

End Fixture.

Example fixture_blocks :
  processBlocks Fixture.decode Fixture.newClaimID Fixture.isCoinBase
    [Fixture.block1; Fixture.block2] ∅ [] =
  ([[mkChange 1 AddClaim [Byte.x61] (11, 0)%Z (Fixture.newClaimID (11, 0)%Z) 10];
    [mkChange 2 SpendClaim [Byte.x61] (11, 0)%Z (Fixture.newClaimID (11, 0)%Z) 0;
     mkChange 2 UpdateClaim [Byte.x61] (21, 0)%Z Fixture.claimIdA 7]], None).
Proof. reflexivity. Qed.

(* ------------------------------------------------------------------ *)
(** ** Replay: lemmas *)

Section ReplayProofs.

Context {T : Type} (ct : ClaimTrieOps T) (env : ReplayEnv T).

Lemma applyChanges_effects t changes effs effs' r :
  applyChanges ct t changes effs = (effs', r) ->
  exists s, effs' = effs ++ s /\ loadsOf s = [] /\ Forall (fun e => readOnlyEffect e = true) s.
Proof.
  revert t effs. induction changes as [|chg rest IH]; intros t effs H; simpl in H.
  - inversion H; subst. exists []. rewrite app_nil_r. auto.
  - set (effs1 := match chg_Type chg with
                  | OtherChangeType _ => effs
                  | ty => effs ++ [EffExecute ty] end) in H.
    assert (Hs : exists s1, effs1 = effs ++ s1 /\ loadsOf s1 = [] /\
                 Forall (fun e => readOnlyEffect e = true) s1).
    { unfold effs1. destruct (chg_Type chg);
        first [ solve [exists []; rewrite app_nil_r; auto]
              | solve [eexists; split; [reflexivity|]; split; [reflexivity|];
                       repeat constructor] ]. }
    destruct Hs as (s1 & Hs1 & Hl1 & Hr1).
    destruct (executeChange ct t chg) as [t'|].
    + destruct (IH _ _ H) as (s2 & -> & Hl2 & Hr2).
      exists (s1 ++ s2). rewrite Hs1, app_assoc. split; [reflexivity|].
      unfold loadsOf in *. rewrite flat_map_app, Hl1, Hl2.
      split; [reflexivity|]. apply Forall_app; auto.
    + inversion H; subst. exists s1. auto.
Qed.

Lemma applyAndAppend_effects t changes effs effs' r :
  applyAndAppend ct env t changes effs = (effs', r) ->
  exists s, effs' = effs ++ s /\ loadsOf s = [] /\ Forall (fun e => readOnlyEffect e = true) s.
Proof.
  unfold applyAndAppend, appendBlock.
  destruct (applyChanges ct t changes effs) as [effs1 [t1|e]] eqn:Ha;
    destruct (applyChanges_effects _ _ _ _ _ Ha) as (s1 & -> & Hl1 & Hr1).
  - intros H.
    destruct (ct_AppendBlock ct t1) as [t2|].
    + exists (s1 ++ [EffAppendBlock; EffBlockByHeight (ct_Height ct t2)]).
      destruct (env_BlockByHeight env (ct_Height ct t2)) as [b|];
        [destruct (Z.eqb _ _)|]; inversion H; subst;
        (split; [rewrite <- !app_assoc; reflexivity|]);
        unfold loadsOf in *; rewrite ?flat_map_app, Hl1;
        (split; [reflexivity|]); apply Forall_app; split; auto; repeat constructor.
    + exists (s1 ++ [EffAppendBlock]). inversion H; subst.
      split; [rewrite <- !app_assoc; reflexivity|].
      unfold loadsOf in *; rewrite ?flat_map_app, Hl1.
      split; [reflexivity|]. apply Forall_app; split; auto; repeat constructor.
  - intros H; inversion H; subst. exists s1. auto.
Qed.

Lemma replayStep_effects ht t effs effs' r :
  replayStep ct env ht t effs = (effs', r) ->
  exists s, effs' = effs ++ [EffLoad (ht + 1)] ++ s /\ loadsOf s = [] /\
            Forall (fun e => readOnlyEffect e = true) s.
Proof.
  unfold replayStep. intros H.
  destruct (env_Load env (ht + 1)).
  - destruct (applyAndAppend_effects _ _ _ _ _ H) as (s & -> & Hs).
    exists s. rewrite <- app_assoc. auto.
  - destruct (applyAndAppend_effects _ _ _ _ _ H) as (s & -> & Hs).
    exists s. rewrite <- app_assoc. auto.
  - inversion H; subst. exists []. rewrite app_nil_r. auto.
Qed.

(** A successful run of [n] iterations from [ht] loads heights
    [ht+1], ..., [ht+n], in that order, and nothing else. *)
Lemma replayLoop_loads n ht t effs effs' t' :
  replayLoop ct env n ht t effs = (effs', inl t') ->
  exists s, effs' = effs ++ s /\
            loadsOf s = map (fun k => ht + 1 + Z.of_nat k)%Z (seq 0 n).
Proof.
  revert ht t effs. induction n as [|n IH]; intros ht t effs H; simpl in H.
  - inversion H; subst. exists []. rewrite app_nil_r. auto.
  - destruct (replayStep ct env ht t effs) as [effs1 [t1|e]] eqn:Hst; [|discriminate].
    destruct (replayStep_effects _ _ _ _ _ Hst) as (s1 & -> & Hl1 & _).
    destruct (IH _ _ _ H) as (s2 & -> & Hl2).
    exists ([EffLoad (ht + 1)] ++ s1 ++ s2). rewrite <- !app_assoc. split; [reflexivity|].
    unfold loadsOf in *. rewrite !flat_map_app, Hl1, Hl2. simpl.
    f_equal; [lia|]. rewrite <- seq_shift, map_map.
    apply map_ext. intros k. lia.
Qed.

Lemma replayLoop_effects n ht t effs effs' r :
  replayLoop ct env n ht t effs = (effs', r) ->
  exists s, effs' = effs ++ s /\ Forall (fun e => readOnlyEffect e = true) s.
Proof.
  revert ht t effs. induction n as [|n IH]; intros ht t effs H; simpl in H.
  - inversion H; subst. exists []. rewrite app_nil_r. auto.
  - destruct (replayStep ct env ht t effs) as [effs1 [t1|e]] eqn:Hst;
      destruct (replayStep_effects _ _ _ _ _ Hst) as (s1 & -> & _ & Hr1).
    + destruct (IH _ _ _ H) as (s2 & -> & Hr2).
      exists ([EffLoad (ht + 1)] ++ s1 ++ s2). rewrite <- !app_assoc.
      split; [reflexivity|]. repeat (apply Forall_app; split); auto.
    + inversion H; subst. exists ([EffLoad (ht + 1)] ++ s1).
      split; [reflexivity|].
      apply Forall_app; split; auto.
Qed.

Lemma removeRepos_effects rs effs effs' r :
  removeRepos env rs effs = (effs', r) ->
  exists pre rest, rs = pre ++ rest /\ effs' = effs ++ map EffRemoveAll pre.
Proof.
  revert effs. induction rs as [|r0 rs IH]; intros effs H; simpl in H.
  - inversion H; subst. exists [], []. simpl. rewrite app_nil_r. auto.
  - destruct (env_RemoveAll env r0).
    + destruct (IH _ H) as (pre & rest & -> & ->).
      exists (r0 :: pre), rest. rewrite <- app_assoc. auto.
    + inversion H; subst. exists [r0], rs. auto.
Qed.

End ReplayProofs.

(* ------------------------------------------------------------------ *)
(** ** Replay: claims *)

Section ReplayClaims.

Context {T : Type} (ct : ClaimTrieOps T) (env : ReplayEnv T).

(** C1: at height step [ht], once the batch of [ht+1] has been applied and
    the trie advanced one block, a commitment hash different from the
    [ClaimTrie] field of the canonical header at the new height makes replay
    return [ErrHashMismatch]; the run ends with that comparison, whatever the
    number [n] of remaining steps, so no change of a later height is loaded
    or applied. *)
Theorem replay_stops_at_hash_mismatch n ht t effs changes effsA t1 t2 block :
  (env_Load env (ht + 1) = Loaded changes \/
   (env_Load env (ht + 1) = LoadErrNotFound /\ changes = [])) ->
  applyChanges ct t changes (effs ++ [EffLoad (ht + 1)]) = (effsA, inl t1) ->
  ct_AppendBlock ct t1 = Some t2 ->
  env_BlockByHeight env (ct_Height ct t2) = Some block ->
  ct_MerkleHash ct t2 <> blk_ClaimTrie block ->
  replayLoop ct env (S n) ht t effs =
    ((effsA ++ [EffAppendBlock]) ++ [EffBlockByHeight (ct_Height ct t2)],
     inr (ErrHashMismatch (ct_Height ct t2))).
Proof.
  intros Hload Happ Hct Hblk Hneq.
  assert (Hstep : replayStep ct env ht t effs =
    ((effsA ++ [EffAppendBlock]) ++ [EffBlockByHeight (ct_Height ct t2)],
     inr (ErrHashMismatch (ct_Height ct t2)))).
  { unfold replayStep.
    destruct Hload as [Hl | [Hl ->]]; rewrite Hl;
      unfold applyAndAppend; rewrite Happ; unfold appendBlock;
      rewrite Hct, Hblk; apply Z.eqb_neq in Hneq; rewrite Hneq; reflexivity. }
  simpl. rewrite Hstep. reflexivity.
Qed.

(** C4: every step at height [ht] starts by loading the batch of [ht+1];
    [ErrNotFound] makes the step behave exactly as an empty batch and replay
    goes on with the next height when that step succeeds; any other load
    failure makes replay return an error at once.  A successful run of [n]
    steps from [ht] loads exactly the heights [ht+1 .. ht+n], in order. *)
Theorem replay_load_not_found_is_empty n ht t effs :
  (env_Load env (ht + 1) = LoadErrNotFound ->
     replayStep ct env ht t effs = applyAndAppend ct env t [] (effs ++ [EffLoad (ht + 1)]) /\
     (forall effs' t',
        applyAndAppend ct env t [] (effs ++ [EffLoad (ht + 1)]) = (effs', inl t') ->
        replayLoop ct env (S n) ht t effs = replayLoop ct env n (ht + 1) t' effs')) /\
  (forall changes, env_Load env (ht + 1) = Loaded changes ->
     replayStep ct env ht t effs = applyAndAppend ct env t changes (effs ++ [EffLoad (ht + 1)])) /\
  (env_Load env (ht + 1) = LoadFailed ->
     replayLoop ct env (S n) ht t effs =
       (effs ++ [EffLoad (ht + 1)], inr (ErrLoadChanges ht))) /\
  (forall effs' t', replayLoop ct env n ht t effs = (effs', inl t') ->
     exists s, effs' = effs ++ s /\
               loadsOf s = map (fun k => ht + 1 + Z.of_nat k)%Z (seq 0 n)).
Proof.
  split; [|split; [|split]].
  - intros Hl. unfold replayStep. rewrite Hl. split; [reflexivity|].
    intros effs' t' Ha. simpl. unfold replayStep. rewrite Hl, Ha. reflexivity.
  - intros changes Hl. unfold replayStep. rewrite Hl. reflexivity.
  - intros Hl. simpl. unfold replayStep. rewrite Hl. reflexivity.
  - intros effs' t' H. exact (replayLoop_loads ct env _ _ _ _ _ _ H).
Qed.

(** C9: the replay command never deletes nor writes the change log: its
    effects are deletions of a prefix of the four derived-state repositories
    (block, node, merkle-trie, temporal), in that order, followed only by
    effects that open no repository but the chain repo and delete nothing;
    the only operation on the chain repo is [Load]. *)
Theorem replay_never_writes_change_log fromHeight toHeight :
  exists pre rest post,
    derivedRepos = pre ++ rest /\
    fst (replayCommand ct env fromHeight toHeight) = map EffRemoveAll pre ++ post /\
    Forall (fun e => readOnlyEffect e = true) post.
Proof.
  unfold replayCommand.
  destruct (removeRepos env derivedRepos []) as [effs0 r0] eqn:Hrm.
  destruct (removeRepos_effects _ _ _ _ _ Hrm) as (pre & rest & Hpre & Heffs).
  simpl in Heffs. subst effs0.
  exists pre, rest. destruct r0 as [e|].
  { exists []. rewrite app_nil_r. auto. }
  destruct (env_OpenChainRepo env); simpl.
  2:{ eexists. split; [exact Hpre|]. split; [reflexivity|]. repeat constructor. }
  destruct (env_NewClaimTrie env) as [t|].
  2:{ eexists. split; [exact Hpre|]. split; [rewrite <- app_assoc; reflexivity|].
      repeat constructor. }
  destruct (env_LoadBlocksDB env); simpl.
  2:{ eexists. split; [exact Hpre|]. split; [rewrite <- !app_assoc; reflexivity|].
      repeat constructor. }
  destruct (env_LoadChain env); simpl.
  2:{ eexists. split; [exact Hpre|]. split; [rewrite <- !app_assoc; reflexivity|].
      repeat constructor. }
  destruct (replayLoop ct env _ fromHeight t _) as [effs r] eqn:Hloop.
  destruct (replayLoop_effects _ _ _ _ _ _ _ _ Hloop) as (s & -> & Hs).
  exists ([EffOpenRepo ChainRepo] ++ [EffNewClaimTrie] ++ [EffLoadBlocksDB] ++
          [EffLoadChain] ++ s).
  split; [exact Hpre|].
  split; [destruct r; simpl; rewrite <- !app_assoc; reflexivity|].
  repeat (apply Forall_app; split); auto; repeat constructor.
Qed.

End ReplayClaims.

(** Witness of C1: the fixture ledger disagrees with the trie at height 3;
    the step from height 2 stops there, whatever the remaining steps. *)
Lemma replay_stops_at_hash_mismatch_witness :
  replayLoop Fixture.trie (Fixture.env Fixture.load) 5 2%Z 2%Z [] =
    (([EffLoad 3%Z; EffExecute AddClaim] ++ [EffAppendBlock]) ++ [EffBlockByHeight 3%Z],
     inr (ErrHashMismatch 3%Z)).
Proof.
  apply (replay_stops_at_hash_mismatch Fixture.trie (Fixture.env Fixture.load)
           4 2%Z 2%Z [] (Fixture.oneClaim 3%Z) [EffLoad 3%Z; EffExecute AddClaim] 2%Z 3%Z
           (mkBlock 3%Z 0%Z [])).
  - left. reflexivity.
  - reflexivity.
  - reflexivity.
  - reflexivity.
  - simpl. lia.
Defined.

(** Witness of C4: height 2 is not found (step from 1), height 4 fails
    (step from 3). *)
Lemma replay_load_not_found_is_empty_witness :
  replayStep Fixture.trie (Fixture.env Fixture.load) 1%Z 1%Z [] =
    applyAndAppend Fixture.trie (Fixture.env Fixture.load) 1%Z [] [EffLoad 2%Z] /\
  replayLoop Fixture.trie (Fixture.env Fixture.load) 1 3%Z 3%Z [] =
    ([EffLoad 4%Z], inr (ErrLoadChanges 3%Z)).
Proof.
  split.
  - apply (proj1 (proj1 (replay_load_not_found_is_empty Fixture.trie
             (Fixture.env Fixture.load) 0 1%Z 1%Z []) eq_refl)).
  - apply (proj1 (proj2 (proj2 (replay_load_not_found_is_empty Fixture.trie
             (Fixture.env Fixture.load) 0 3%Z 3%Z [])))).
    reflexivity.
Defined.

(* ------------------------------------------------------------------ *)
(** ** Extractor: lemmas *)

Section ExtractorProofs.

Variable DecodeClaimScript : Script -> DecodeResult.
Variable NewClaimID : OutPoint -> ClaimID.
Variable IsCoinBase : Tx -> bool.

Local Abbreviation pIns := (processTxIns DecodeClaimScript NewClaimID).
Local Abbreviation pOuts := (processTxOuts DecodeClaimScript NewClaimID).
Local Abbreviation pTx := (processTx DecodeClaimScript NewClaimID IsCoinBase).
Local Abbreviation pTxs := (processTxs DecodeClaimScript NewClaimID IsCoinBase).

Lemma goCopy_full (src : list Byte.byte) :
  length src = ClaimIDSize -> goCopy zeroClaimID src = src.
Proof.
  intros H. unfold goCopy, zeroClaimID. rewrite repeat_length, <- H.
  rewrite firstn_all. rewrite skipn_all2; [apply app_nil_r|].
  rewrite repeat_length, H. lia.
Qed.

Lemma processTxIns_shape height ins view evs acc evs' chs :
  pIns height ins view evs acc = Done (evs', chs) ->
  evs' = evs ++ map EvLookupEntry ins /\
  exists s, chs = acc ++ s /\
    Forall (fun c => isSpendType (chg_Type c) = true /\
                     In (chg_OutPoint c) ins /\ chg_Height c = height) s.
Proof.
  revert evs acc. induction ins as [|op rest IH]; intros evs acc H; simpl in H.
  - inversion H; subst. rewrite !app_nil_r. split; [reflexivity|].
    exists []. rewrite app_nil_r. auto.
  - destruct (view !! op) as [e|]; [|discriminate].
    destruct (DecodeClaimScript (ue_PkScript e)) as [cs| |]; [| |discriminate].
    + destruct (IH _ _ H) as [Hev (s & Hs & Hf)].
      split; [rewrite Hev, <- app_assoc; reflexivity|].
      set (chg := match cs_Opcode cs with
                  | OP_CLAIMNAME => mkChange height SpendClaim (cs_Name cs) op (NewClaimID op) 0
                  | OP_UPDATECLAIM => mkChange height SpendClaim (cs_Name cs) op
                                        (goCopy zeroClaimID (cs_ClaimID cs)) 0
                  | OP_SUPPORTCLAIM => mkChange height SpendSupport (cs_Name cs) op
                                        (goCopy zeroClaimID (cs_ClaimID cs)) 0
                  end) in *.
      exists (chg :: s). rewrite Hs, <- app_assoc. split; [reflexivity|].
      constructor.
      * unfold chg. destruct (cs_Opcode cs); simpl; auto.
      * eapply Forall_impl; [exact Hf|]. simpl. intuition.
    + destruct (IH _ _ H) as [Hev (s & Hs & Hf)].
      split; [rewrite Hev, <- app_assoc; reflexivity|].
      exists s. split; [exact Hs|].
      eapply Forall_impl; [exact Hf|]. simpl. intuition.
Qed.

Lemma processTxOuts_shape height h i outs acc chs :
  pOuts height h i outs acc = Done chs ->
  exists c, chs = acc ++ c /\
    Forall (fun c => isCreateType (chg_Type c) = true /\
                     fst (chg_OutPoint c) = h /\ chg_Height c = height) c.
Proof.
  revert i acc. induction outs as [|o rest IH]; intros i acc H; simpl in H.
  - inversion H; subst. exists []. rewrite app_nil_r. auto.
  - destruct (DecodeClaimScript (txout_PkScript o)) as [cs| |]; [| |discriminate].
    + match type of H with pOuts _ _ _ _ (acc ++ [?chg]) = _ =>
        destruct (IH _ _ H) as (c & Hc & Hf);
        exists (chg :: c); rewrite Hc, <- app_assoc; split; [reflexivity|];
        constructor; [destruct (cs_Opcode cs); simpl; auto | exact Hf]
      end.
    + exact (IH _ _ H).
Qed.

Lemma processTx_shape height tx view evs acc view' evs' chs :
  pTx height tx (view, evs, acc) = Done (view', evs', chs) ->
  view' = AddTxOuts tx height view /\
  evs' = evs ++ [EvAddTxOuts (tx_Hash tx)] ++
         (if IsCoinBase tx then [] else map EvLookupEntry (tx_TxIn tx)) /\
  ((IsCoinBase tx = true /\ chs = acc) \/
   (IsCoinBase tx = false /\ exists s c, chs = acc ++ s ++ c /\
      spendSide height tx s /\ createSide height tx c)).
Proof.
  unfold processTx. intros H.
  destruct (IsCoinBase tx) eqn:Hcb.
  - inversion H; subst. rewrite app_nil_r. auto.
  - destruct (pIns height (tx_TxIn tx) (AddTxOuts tx height view)
                (evs ++ [EvAddTxOuts (tx_Hash tx)]) acc) as [[evs1 chs1]|p] eqn:Hi;
      [|discriminate].
    destruct (pOuts height (tx_Hash tx) 0 (tx_TxOut tx) chs1) as [chs2|p] eqn:Ho;
      [|discriminate].
    inversion H; subst.
    destruct (processTxIns_shape _ _ _ _ _ _ _ Hi) as [Hev (s & Hs & Hsf)].
    destruct (processTxOuts_shape _ _ _ _ _ _ Ho) as (c & Hc & Hcf).
    split; [reflexivity|]. split; [rewrite Hev, app_assoc; reflexivity|].
    right. split; [reflexivity|]. exists s, c.
    rewrite Hc, Hs, app_assoc. auto.
Qed.

Lemma processTxs_shape height txs view evs acc view' evs' chs :
  pTxs height txs (view, evs, acc) = Done (view', evs', chs) ->
  exists parts : list (list Change * list Change),
    chs = acc ++ concat (map (fun p => fst p ++ snd p) parts) /\
    Forall2 (fun tx p => spendSide height tx (fst p) /\ createSide height tx (snd p))
      (List.filter (fun tx => negb (IsCoinBase tx)) txs) parts.
Proof.
  revert view evs acc. induction txs as [|tx rest IH]; intros view evs acc H;
    cbn [processTxs] in H.
  - inversion H; subst. exists []. rewrite app_nil_r. auto.
  - destruct (pTx height tx (view, evs, acc)) as [[[view1 evs1] chs1]|p] eqn:Ht;
      [|discriminate].
    destruct (IH _ _ _ H) as (parts & Hchs & Hf).
    destruct (processTx_shape _ _ _ _ _ _ _ _ Ht) as (_ & _ & [[Hcb ->] | [Hcb (s & c & -> & Hs & Hc)]]);
      simpl; rewrite Hcb; simpl.
    + exists parts. auto.
    + exists ((s, c) :: parts). split.
      * rewrite Hchs. simpl. rewrite !app_assoc. reflexivity.
      * constructor; auto.
Qed.

Lemma processOneBlock_heights block view view' evs chs :
  processOneBlock DecodeClaimScript NewClaimID IsCoinBase block view = Done (view', evs, chs) ->
  Forall (fun c => chg_Height c = blk_Height block) chs.
Proof.
  unfold processOneBlock. intros H.
  destruct (processTxs_shape _ _ _ _ _ _ _ _ H) as (parts & -> & Hf). simpl.
  remember (List.filter _ _) as l eqn:Hl. clear Hl H.
  induction Hf as [|tx p l parts [Hs Hc] _ IH]; simpl; [constructor|].
  apply Forall_app; split; [apply Forall_app; split|exact IH].
  - eapply Forall_impl; [exact Hs|]. simpl. intuition.
  - eapply Forall_impl; [exact Hc|]. simpl. intuition.
Qed.

End ExtractorProofs.

Lemma addTxOutsFrom_other (h : Hash) (height i : Z) (outs : list TxOut) (view : View) (key : OutPoint) :
  (fst key <> h \/ (snd key < i)%Z) ->
  addTxOutsFrom h height i outs view !! key = view !! key.
Proof.
  revert i view. induction outs as [|o rest IH]; intros i view Hk; simpl; [reflexivity|].
  rewrite IH by (destruct Hk; [left; assumption | right; lia]).
  apply lookup_insert_ne. intros Heq. subst key. simpl in Hk. destruct Hk; [congruence|lia].
Qed.

Lemma addTxOutsFrom_lookup (h : Hash) (height i : Z) (outs : list TxOut) (view : View) (k : nat) (o : TxOut) :
  outs !! k = Some o ->
  addTxOutsFrom h height i outs view !! (h, i + Z.of_nat k)%Z =
    Some (mkUtxoEntry (txout_Value o) (txout_PkScript o) height).
Proof.
  revert i view k. induction outs as [|o' rest IH]; intros i view k Hk; [discriminate|].
  destruct k as [|k]; simpl in Hk.
  - inversion Hk; subst. simpl.
    rewrite addTxOutsFrom_other by (right; simpl; lia).
    rewrite Z.add_0_r. apply lookup_insert_eq.
  - simpl. replace (i + Z.of_nat (S k))%Z with (i + 1 + Z.of_nat k)%Z by lia.
    apply IH. exact Hk.
Qed.

Lemma processBlocks_batches DecodeClaimScript NewClaimID IsCoinBase blocks view pushed pushed' r :
  processBlocks DecodeClaimScript NewClaimID IsCoinBase blocks view pushed = (pushed', r) ->
  forall batch, In batch pushed' ->
    In batch pushed \/
    (batch <> [] /\ exists block, In block blocks /\
       Forall (fun c => chg_Height c = blk_Height block) batch).
Proof.
  revert view pushed. induction blocks as [|b rest IH]; intros view pushed H batch Hin;
    cbn [processBlocks] in H.
  - inversion H; subst. auto.
  - destruct (processOneBlock DecodeClaimScript NewClaimID IsCoinBase b view)
      as [[[view1 evs1] chs]|p] eqn:Hb.
    + destruct (IH _ _ H _ Hin) as [Hp | (Hne & blk & Hblk & Hf)].
      * destruct (length chs =? 0)%nat eqn:Hl; [left; exact Hp|].
        apply in_app_or in Hp. destruct Hp as [Hp | [<- | []]]; [left; exact Hp|].
        right. split.
        -- intros ->. discriminate.
        -- exists b. split; [left; reflexivity|].
           exact (processOneBlock_heights _ _ _ _ _ _ _ _ Hb).
      * right. split; [exact Hne|]. exists blk. split; [right; exact Hblk | exact Hf].
    + inversion H; subst. left. exact Hin.
Qed.

Lemma saveChanges_calls {S : Type} (Save : S -> Z -> list Change -> option S)
    store batches k batch :
  In (k, batch) (fst (saveChanges Save store batches)) ->
  In batch batches /\ exists c0 rest, batch = c0 :: rest /\ k = chg_Height c0.
Proof.
  revert store. induction batches as [|chs rest IH]; intros store Hin; simpl in Hin;
    [contradiction|].
  destruct chs as [|c0 cs]; simpl in Hin; [contradiction|].
  destruct (Save store (chg_Height c0) (c0 :: cs)) as [store'|].
  - destruct (saveChanges Save store' rest) as [calls r] eqn:Hs. simpl in Hin.
    destruct Hin as [Heq | Hin].
    + inversion Heq; subst. split; [left; reflexivity|]. eauto.
    + specialize (IH store'). rewrite Hs in IH. destruct (IH Hin) as [Hb Hc].
      split; [right; exact Hb | exact Hc].
  - simpl in Hin. destruct Hin as [Heq | []]. inversion Heq; subst.
    split; [left; reflexivity|]. eauto.
Qed.

(** Views that agree on the outpoints selected by [Q]. *)
Lemma addTxOutsFrom_agree (Q : OutPoint -> Prop) (h : Hash) (height i : Z)
    (outs : list TxOut) (v1 v2 : View) :
  (forall op, Q op -> v1 !! op = v2 !! op) ->
  forall op, Q op -> addTxOutsFrom h height i outs v1 !! op = addTxOutsFrom h height i outs v2 !! op.
Proof.
  revert i v1 v2. induction outs as [|o rest IH]; intros i v1 v2 Hag; simpl; [exact Hag|].
  apply IH. intros op Hq.
  destruct (decide ((h, i) = op)) as [<-|Hne].
  - rewrite !lookup_insert_eq. reflexivity.
  - rewrite !lookup_insert_ne by exact Hne. apply Hag, Hq.
Qed.

Lemma processTxIns_agree (DecodeClaimScript : Script -> DecodeResult)
    (NewClaimID : OutPoint -> ClaimID) (height : Z) (ins : list OutPoint) (v1 v2 : View)
    (evs : list ViewEvent) (acc : list Change) :
  (forall op, In op ins -> v1 !! op = v2 !! op) ->
  processTxIns DecodeClaimScript NewClaimID height ins v1 evs acc =
    processTxIns DecodeClaimScript NewClaimID height ins v2 evs acc.
Proof.
  revert evs acc. induction ins as [|op rest IH]; intros evs acc Hag; simpl; [reflexivity|].
  rewrite (Hag op (or_introl eq_refl)).
  destruct (v2 !! op) as [e|]; [|reflexivity].
  destruct (DecodeClaimScript (ue_PkScript e)); [| |reflexivity];
    apply IH; intros op' Hin; apply Hag; right; exact Hin.
Qed.

Lemma processTxs_agree (DecodeClaimScript : Script -> DecodeResult)
    (NewClaimID : OutPoint -> ClaimID) (IsCoinBase : Tx -> bool)
    (Q : OutPoint -> Prop) (height : Z) (txs : list Tx) (v1 v2 : View)
    (evs : list ViewEvent) (acc : list Change) :
  (forall tx op, In tx txs -> In op (tx_TxIn tx) -> Q op) ->
  (forall op, Q op -> v1 !! op = v2 !! op) ->
  changesOf (processTxs DecodeClaimScript NewClaimID IsCoinBase height txs (v1, evs, acc)) =
  changesOf (processTxs DecodeClaimScript NewClaimID IsCoinBase height txs (v2, evs, acc)).
Proof.
  revert v1 v2 evs acc. induction txs as [|tx rest IH]; intros v1 v2 evs acc Hq Hag;
    cbn [processTxs]; [reflexivity|].
  pose proof (addTxOutsFrom_agree Q (tx_Hash tx) height 0 (tx_TxOut tx) v1 v2 Hag) as Hag'.
  assert (Hrest : forall tx' op, In tx' rest -> In op (tx_TxIn tx') -> Q op)
    by (intros tx' op Hin; apply Hq; right; exact Hin).
  unfold processTx. fold (AddTxOuts tx height v1). fold (AddTxOuts tx height v2).
  destruct (IsCoinBase tx); [apply IH; assumption|].
  rewrite (processTxIns_agree DecodeClaimScript NewClaimID height (tx_TxIn tx)
             (AddTxOuts tx height v1) (AddTxOuts tx height v2))
    by (intros op Hin; apply Hag'; apply (Hq tx op (or_introl eq_refl) Hin)).
  destruct (processTxIns DecodeClaimScript NewClaimID height (tx_TxIn tx)
              (AddTxOuts tx height v2) (evs ++ [EvAddTxOuts (tx_Hash tx)]) acc)
    as [[evs1 chs1]|p]; [|reflexivity].
  destruct (processTxOuts DecodeClaimScript NewClaimID height (tx_Hash tx) 0
              (tx_TxOut tx) chs1); [|reflexivity].
  apply IH; assumption.
Qed.

(* ------------------------------------------------------------------ *)
(** ** Extractor and converter: claims *)

Section ExtractorClaims.

Variable DecodeClaimScript : Script -> DecodeResult.
Variable NewClaimID : OutPoint -> ClaimID.
Variable IsCoinBase : Tx -> bool.

(** C2: the changes of a block are, transaction after transaction in block
    order (coinbase transactions contribute nothing), the spends derived
    from that transaction's inputs followed by the creations derived from its
    outputs. *)
Theorem processOneBlock_spends_before_creates block view view' evs changes :
  processOneBlock DecodeClaimScript NewClaimID IsCoinBase block view =
    Done (view', evs, changes) ->
  exists parts : list (list Change * list Change),
    changes = concat (map (fun p => fst p ++ snd p) parts) /\
    Forall2 (fun tx p => spendSide (blk_Height block) tx (fst p) /\
                         createSide (blk_Height block) tx (snd p))
      (List.filter (fun tx => negb (IsCoinBase tx)) (blk_Transactions block)) parts.
Proof.
  unfold processOneBlock. intros H.
  exact (processTxs_shape _ _ _ _ _ _ _ _ _ _ _ H).
Qed.

(** C3: an input whose previous output is found in the view and decodes as
    a claim script contributes one change for its outpoint: a create-opcode
    spend a [SpendClaim] with the claim ID derived from the outpoint, an
    update-opcode spend a [SpendClaim] and a support-opcode spend a
    [SpendSupport], both carrying the script's (20-byte) claim ID. *)
Theorem processTxIns_classify height op rest view evs changes e cs :
  view !! op = Some e ->
  DecodeClaimScript (ue_PkScript e) = DecodeOk cs ->
  exists chg,
    processTxIns DecodeClaimScript NewClaimID height (op :: rest) view evs changes =
      processTxIns DecodeClaimScript NewClaimID height rest view
        (evs ++ [EvLookupEntry op]) (changes ++ [chg]) /\
    chg_Height chg = height /\ chg_Name chg = cs_Name cs /\ chg_OutPoint chg = op /\
    match cs_Opcode cs with
    | OP_CLAIMNAME => chg_Type chg = SpendClaim /\ chg_ClaimID chg = NewClaimID op
    | OP_UPDATECLAIM => chg_Type chg = SpendClaim /\
        (length (cs_ClaimID cs) = ClaimIDSize -> chg_ClaimID chg = cs_ClaimID cs)
    | OP_SUPPORTCLAIM => chg_Type chg = SpendSupport /\
        (length (cs_ClaimID cs) = ClaimIDSize -> chg_ClaimID chg = cs_ClaimID cs)
    end.
Proof.
  intros Hv Hd. simpl. rewrite Hv, Hd.
  destruct (cs_Opcode cs); eexists; (split; [reflexivity|]); simpl;
    repeat split; auto; apply goCopy_full.
Qed.

(** C6, as the code does it: on reaching a transaction (coinbase or not),
    the extractor first registers all of its outputs into the view, claim
    scripts or not, and only then looks up its inputs. *)
Theorem processTx_registers_outputs_first height tx view evs acc view' evs' chs :
  processTx DecodeClaimScript NewClaimID IsCoinBase height tx (view, evs, acc) =
    Done (view', evs', chs) ->
  evs' = evs ++ [EvAddTxOuts (tx_Hash tx)] ++
         (if IsCoinBase tx then [] else map EvLookupEntry (tx_TxIn tx)) /\
  (forall k o, tx_TxOut tx !! k = Some o ->
     view' !! (tx_Hash tx, Z.of_nat k) =
       Some (mkUtxoEntry (txout_Value o) (txout_PkScript o) height)).
Proof.
  intros H. destruct (processTx_shape _ _ _ _ _ _ _ _ _ _ _ H) as (-> & Hev & _).
  split; [exact Hev|]. intros k o Hk.
  unfold AddTxOuts. exact (addTxOutsFrom_lookup _ _ 0 _ _ _ _ Hk).
Qed.

(** C7: on both sides, a script that is not a claim script is skipped and
    processing continues with the rest; a claim-shaped but malformed script
    ends extraction (a nil-pointer panic after the decoder's error), so the
    block yields no batch and no later block is processed. *)
Theorem extractor_malformed_script_is_fatal height op rest view evs changes e
    h i txOut outs block blocks pushed p :
  (view !! op = Some e -> DecodeClaimScript (ue_PkScript e) = ErrNotClaimScript ->
     processTxIns DecodeClaimScript NewClaimID height (op :: rest) view evs changes =
     processTxIns DecodeClaimScript NewClaimID height rest view (evs ++ [EvLookupEntry op]) changes) /\
  (view !! op = Some e -> DecodeClaimScript (ue_PkScript e) = ErrMalformedClaimScript ->
     processTxIns DecodeClaimScript NewClaimID height (op :: rest) view evs changes =
     Panic NilClaimScript) /\
  (DecodeClaimScript (txout_PkScript txOut) = ErrNotClaimScript ->
     processTxOuts DecodeClaimScript NewClaimID height h i (txOut :: outs) changes =
     processTxOuts DecodeClaimScript NewClaimID height h (i + 1) outs changes) /\
  (DecodeClaimScript (txout_PkScript txOut) = ErrMalformedClaimScript ->
     processTxOuts DecodeClaimScript NewClaimID height h i (txOut :: outs) changes =
     Panic NilClaimScript) /\
  (processOneBlock DecodeClaimScript NewClaimID IsCoinBase block view = Panic p ->
     processBlocks DecodeClaimScript NewClaimID IsCoinBase (block :: blocks) view pushed =
     (pushed, Some p)).
Proof.
  repeat split; intros; simpl;
    repeat match goal with H : _ = _ |- _ => rewrite H; clear H end; reflexivity.
Qed.

(** C10: extraction is deterministic.  Two views with the same entries
    give identical results, for the block alone and for the extract stage
    started on it; moreover the view operations and the ordered changes of
    a block (or the panic that ends it) depend only on the entries of the
    view at the outpoints the block's inputs spend. *)
Theorem processOneBlock_deterministic (block : Block) (view1 view2 : View) :
  ((forall op, view1 !! op = view2 !! op) ->
   processOneBlock DecodeClaimScript NewClaimID IsCoinBase block view1 =
     processOneBlock DecodeClaimScript NewClaimID IsCoinBase block view2 /\
   (forall blocks pushed,
      processBlocks DecodeClaimScript NewClaimID IsCoinBase (block :: blocks) view1 pushed =
      processBlocks DecodeClaimScript NewClaimID IsCoinBase (block :: blocks) view2 pushed)) /\
  ((forall op, In op (blockInputs block) -> view1 !! op = view2 !! op) ->
   changesOf (processOneBlock DecodeClaimScript NewClaimID IsCoinBase block view1) =
   changesOf (processOneBlock DecodeClaimScript NewClaimID IsCoinBase block view2)).
Proof.
  split.
  - intros Hv. apply map_eq in Hv. subst view2. split; reflexivity.
  - intros Hag. unfold processOneBlock.
    apply (processTxs_agree _ _ _ (fun op => In op (blockInputs block))); [|exact Hag].
    intros tx op Htx Hop. unfold blockInputs. apply in_concat.
    exists (tx_TxIn tx). split; [apply in_map; exact Htx | exact Hop].
Qed.

(** C8: every batch handed to [chainRepo.Save] by the convert command is
    non-empty, all its records carry the key it is saved under, and that
    key is the height of a block read by the fetch stage. *)
Theorem convert_saved_batches_keyed_by_height {S : Type}
    (BlockByHeight : Z -> option Block) bestHeight
    (Save : S -> Z -> list Change -> option S) store height k batch :
  In (k, batch) (snd (convertCommand DecodeClaimScript NewClaimID IsCoinBase
                        BlockByHeight bestHeight Save store height)) ->
  batch <> [] /\ Forall (fun c => chg_Height c = k) batch /\
  exists block, In block (snd (getBlock BlockByHeight bestHeight)) /\ blk_Height block = k.
Proof.
  unfold convertCommand.
  destruct (getBlock BlockByHeight bestHeight) as [reads blocks].
  destruct (processBlocks DecodeClaimScript NewClaimID IsCoinBase blocks ∅ [])
    as [batches r] eqn:Hp.
  simpl. intros Hin.
  destruct (saveChanges_calls _ _ _ _ _ Hin) as [Hb (c0 & cs & -> & ->)].
  destruct (processBlocks_batches _ _ _ _ _ _ _ _ Hp _ Hb)
    as [[] | (Hne & blk & Hblk & Hf)].
  split; [discriminate|].
  inversion Hf as [|? ? Hc0 _]; subst.
  rewrite Hc0. split; [exact Hf|].
  exists blk. auto.
Qed.

End ExtractorClaims.

(** C5: [convert --height 3] on a chain whose best height is 5 reads every
    block of heights 0 to 4: the flag is never consulted. *)
Theorem convert_reads_ignore_height_flag :
  fst (convertCommand Fixture.decode Fixture.newClaimID Fixture.isCoinBase
         Fixture.blockAt 5 Fixture.store_save [] 3) = [0; 1; 2; 3; 4]%Z.
Proof. vm_compute. reflexivity. Qed.

(* ------------------------------------------------------------------ *)
(** ** Witnesses and counterexamples on the fixtures *)

Local Open Scope Z_scope.

(** Witness of C2, on block 2 after block 1. *)
Lemma processOneBlock_spends_before_creates_witness :
  exists parts : list (list Change * list Change),
    Fixture.result2.2 = concat (map (fun p => fst p ++ snd p) parts) /\
    Forall2 (fun tx p => spendSide 2 tx (fst p) /\ createSide 2 tx (snd p))
      (List.filter (fun tx => negb (Fixture.isCoinBase tx))
         (blk_Transactions Fixture.block2)) parts.
Proof.
  apply (processOneBlock_spends_before_creates Fixture.decode Fixture.newClaimID
           Fixture.isCoinBase Fixture.block2 Fixture.view1
           Fixture.result2.1.1 Fixture.result2.1.2 Fixture.result2.2).
  vm_compute. reflexivity.
Defined.

(** Witness of C3: spending the claim created in block 1. *)
Lemma processTxIns_classify_witness :
  exists chg,
    processTxIns Fixture.decode Fixture.newClaimID 2 [(11, 0)%Z] Fixture.view1 [] [] =
      processTxIns Fixture.decode Fixture.newClaimID 2 [] Fixture.view1
        ([] ++ [EvLookupEntry (11, 0)%Z]) ([] ++ [chg]) /\
    chg_Height chg = 2%Z /\ chg_Name chg = [Byte.x61] /\ chg_OutPoint chg = (11, 0)%Z /\
    (chg_Type chg = SpendClaim /\ chg_ClaimID chg = Fixture.newClaimID (11, 0)%Z).
Proof.
  apply (processTxIns_classify Fixture.decode Fixture.newClaimID 2 (11, 0)%Z []
           Fixture.view1 [] [] (mkUtxoEntry 10 [Byte.x01; Byte.x61] 1)
           (mkClaimScript OP_CLAIMNAME [Byte.x61] [])).
  - vm_compute. reflexivity.
  - reflexivity.
Defined.

(** C6 refuted: processing transaction 21 first registers its outputs
    ([EvAddTxOuts 21]) and only then looks up its input [(11, 0)]. *)
Lemma processTx_outputs_before_inputs_counterexample :
  processTx Fixture.decode Fixture.newClaimID Fixture.isCoinBase 2 Fixture.tx21
    (Fixture.view1, [], []) = Done Fixture.resultTx21 /\
  Fixture.resultTx21.1.2 = [EvAddTxOuts 21%Z; EvLookupEntry (11, 0)%Z].
Proof. split; vm_compute; reflexivity. Qed.

(** Witness of the amended C6, on transaction 21. *)
Lemma processTx_registers_outputs_first_witness :
  Fixture.resultTx21.1.2 =
    [] ++ [EvAddTxOuts 21%Z] ++
    (if Fixture.isCoinBase Fixture.tx21 then [] else map EvLookupEntry (tx_TxIn Fixture.tx21)) /\
  (forall k o, tx_TxOut Fixture.tx21 !! k = Some o ->
     Fixture.resultTx21.1.1 !! (21%Z, Z.of_nat k) =
       Some (mkUtxoEntry (txout_Value o) (txout_PkScript o) 2%Z)).
Proof.
  apply (processTx_registers_outputs_first Fixture.decode Fixture.newClaimID
           Fixture.isCoinBase 2 Fixture.tx21 Fixture.view1 [] []
           Fixture.resultTx21.1.1 Fixture.resultTx21.1.2 Fixture.resultTx21.2).
  vm_compute. reflexivity.
Defined.

(** Witness of C7: the malformed output of block 3. *)
Lemma extractor_malformed_script_is_fatal_witness :
  processTxOuts Fixture.decode Fixture.newClaimID 3 31 0 [mkTxOut 1 [Byte.x09]] [] =
    Panic NilClaimScript /\
  processBlocks Fixture.decode Fixture.newClaimID Fixture.isCoinBase
    [Fixture.block3; Fixture.block2] Fixture.view1 [] = ([], Some NilClaimScript).
Proof.
  destruct (extractor_malformed_script_is_fatal Fixture.decode Fixture.newClaimID
              Fixture.isCoinBase 3 (11, 0)%Z [] Fixture.view1 [] []
              (mkUtxoEntry 10 [Byte.x01; Byte.x61] 1) 31 0 (mkTxOut 1 [Byte.x09]) []
              Fixture.block3 [Fixture.block2] [] NilClaimScript)
    as (_ & _ & _ & H4 & H5).
  split.
  - apply H4. reflexivity.
  - apply H5. vm_compute. reflexivity.
Defined.

(** Witness of C8: the batch of block 1 saved by the convert command. *)
Lemma convert_saved_batches_keyed_by_height_witness :
  Fixture.batch1 <> [] /\ Forall (fun c => chg_Height c = 1%Z) Fixture.batch1 /\
  exists block, In block (snd (getBlock Fixture.chainAt 3)) /\ blk_Height block = 1%Z.
Proof.
  apply (convert_saved_batches_keyed_by_height Fixture.decode Fixture.newClaimID
           Fixture.isCoinBase Fixture.chainAt 3 Fixture.store_save [] 7 1 Fixture.batch1).
  vm_compute. left. reflexivity.
Defined.

(** Witness of C10: the view after block 1 rebuilt in another insertion
    order, and a view that agrees with it only on the outpoint [(11, 0)]
    spent by block 2; block 2 yields its spend and update on all three. *)
Lemma processOneBlock_deterministic_witness :
  ((forall op, Fixture.view1 !! op = Fixture.view1r !! op) ->
   processOneBlock Fixture.decode Fixture.newClaimID Fixture.isCoinBase
     Fixture.block2 Fixture.view1 =
   processOneBlock Fixture.decode Fixture.newClaimID Fixture.isCoinBase
     Fixture.block2 Fixture.view1r /\
   (forall blocks pushed,
      processBlocks Fixture.decode Fixture.newClaimID Fixture.isCoinBase
        (Fixture.block2 :: blocks) Fixture.view1 pushed =
      processBlocks Fixture.decode Fixture.newClaimID Fixture.isCoinBase
        (Fixture.block2 :: blocks) Fixture.view1r pushed)) /\
  ((forall op, In op (blockInputs Fixture.block2) -> Fixture.view1 !! op = Fixture.viewOnly11 !! op) ->
   changesOf (processOneBlock Fixture.decode Fixture.newClaimID Fixture.isCoinBase
     Fixture.block2 Fixture.view1) =
   changesOf (processOneBlock Fixture.decode Fixture.newClaimID Fixture.isCoinBase
     Fixture.block2 Fixture.viewOnly11)) /\
  (forall op, Fixture.view1 !! op = Fixture.view1r !! op) /\
  (forall op, In op (blockInputs Fixture.block2) -> Fixture.view1 !! op = Fixture.viewOnly11 !! op) /\
  Fixture.view1 <> Fixture.viewOnly11 /\
  changesOf (processOneBlock Fixture.decode Fixture.newClaimID Fixture.isCoinBase
     Fixture.block2 Fixture.viewOnly11) =
    Done ([EvAddTxOuts 200; EvAddTxOuts 21; EvLookupEntry (11, 0)],
          [mkChange 2 SpendClaim [Byte.x61] (11, 0) (Fixture.newClaimID (11, 0)) 0;
           mkChange 2 UpdateClaim [Byte.x61] (21, 0) Fixture.claimIdA 7]).
Proof.
  assert (Hr : forall op, Fixture.view1 !! op = Fixture.view1r !! op)
    by (intros op; vm_compute; reflexivity).
  assert (Ho : forall op, In op (blockInputs Fixture.block2) ->
                 Fixture.view1 !! op = Fixture.viewOnly11 !! op).
  { intros op Hin. vm_compute in Hin.
    destruct Hin as [Heq|[Heq|[]]]; subst op; vm_compute; reflexivity. }
  split; [exact (proj1 (processOneBlock_deterministic Fixture.decode Fixture.newClaimID
           Fixture.isCoinBase Fixture.block2 Fixture.view1 Fixture.view1r))|].
  split; [exact (proj2 (processOneBlock_deterministic Fixture.decode Fixture.newClaimID
           Fixture.isCoinBase Fixture.block2 Fixture.view1 Fixture.viewOnly11))|].
  split; [exact Hr|]. split; [exact Ho|]. split.
  - intros Heq. assert (H99 : Fixture.view1 !! (100, 0) = Fixture.viewOnly11 !! (100, 0))
      by (rewrite Heq; reflexivity).
    vm_compute in H99. discriminate.
  - vm_compute. reflexivity.
Defined.

Local Close Scope Z_scope.

(* ------------------------------------------------------------------ *)
(** ** The dump command *)

Lemma zrange_S (a : Z) (n : nat) : zrange a (S n) = a :: zrange (a + 1) n.
Proof.
  unfold zrange. simpl. f_equal; [lia|].
  rewrite <- seq_shift, map_map. apply map_ext. intros k. lia.
Qed.

Lemma int32Inc_small (z : Z) : inInt32 z -> (z < MaxInt32)%Z -> int32Inc z = (z + 1)%Z.
Proof.
  unfold inInt32, MaxInt32, int32Inc. intros Hr Hlt.
  rewrite Z.mod_small by lia. lia.
Qed.

Lemma int32Inc_range (z : Z) : inInt32 (int32Inc z).
Proof.
  unfold inInt32, MaxInt32, int32Inc.
  pose proof (Z.mod_pos_bound (z + 1 + 2 ^ 31) (2 ^ 32) ltac:(lia)). lia.
Qed.


(** The dump stops at the first height whose load fails with an error other
    than not-found, after showing the batches of the heights before it. *)
Theorem dumpLoop_stops_at_first_failure (Load : Z -> LoadResult) fuel fromHeight
    toHeight h0 shown :
  inInt32 fromHeight -> inInt32 toHeight -> (fromHeight <= h0 <= toHeight)%Z ->
  Load h0 = LoadFailed ->
  (forall h, (fromHeight <= h < h0)%Z -> Load h <> LoadFailed) ->
  (Z.to_nat (h0 - fromHeight) < fuel)%nat ->
  dumpLoop Load fuel fromHeight toHeight shown =
    Some (shown ++ concat (map (fun h => batchOf (Load h))
                             (zrange fromHeight (Z.to_nat (h0 - fromHeight)))),
          Some (DumpErrLoad h0)).
Proof.
  remember (Z.to_nat (h0 - fromHeight)) as n eqn:Hn.
  revert fromHeight fuel shown Hn.
  induction n as [|m IH]; intros fromHeight fuel shown Hn Hr Hrt Hle Hfail Hok Hfuel;
    (destruct fuel as [|fuel]; [lia|]); cbn [dumpLoop];
    replace (fromHeight <=? toHeight)%Z with true by (symmetry; apply Z.leb_le; lia).
  - replace fromHeight with h0 by lia. rewrite Hfail, app_nil_r. reflexivity.
  - rewrite zrange_S. cbn [map concat].
    rewrite (int32Inc_small fromHeight Hr) by (unfold inInt32, MaxInt32 in *; lia).
    assert (Hr' : inInt32 (fromHeight + 1)) by (unfold inInt32, MaxInt32 in *; lia).
    assert (Hok' : forall h, (fromHeight + 1 <= h < h0)%Z -> Load h <> LoadFailed)
      by (intros h Hh; apply Hok; lia).
    pose proof (Hok fromHeight ltac:(lia)) as Hf.
    destruct (Load fromHeight) as [changes| |] eqn:Hl; [| |contradiction].
    + rewrite (IH (fromHeight + 1)%Z fuel (shown ++ changes)) by (auto; lia).
      simpl. rewrite app_assoc. reflexivity.
    + rewrite (IH (fromHeight + 1)%Z fuel shown) by (auto; lia). reflexivity.
Qed.

(** With [--to 2147483647] the loop condition [height <= toHeight] holds for
    every [int32], and [height++] wraps around: unless a load fails, the dump
    never ends. *)
Theorem dumpLoop_max_to_never_ends (Load : Z -> LoadResult) fuel fromHeight shown :
  inInt32 fromHeight -> (forall h, Load h <> LoadFailed) ->
  dumpLoop Load fuel fromHeight MaxInt32 shown = None.
Proof.
  intros Hr Hok. revert fromHeight shown Hr.
  induction fuel as [|fuel IH]; intros fromHeight shown Hr; simpl; [reflexivity|].
  replace (fromHeight <=? MaxInt32)%Z with true
    by (symmetry; apply Z.leb_le; unfold inInt32 in Hr; lia).
  pose proof (Hok fromHeight) as Hf.
  destruct (Load fromHeight); [| |contradiction]; apply IH, int32Inc_range.
Qed.


Lemma dumpLoop_stops_at_first_failure_witness :
  dumpLoop Fixture.load 10 1 8 [] =
    Some (Fixture.oneClaim 1 ++ Fixture.oneClaim 3, Some (DumpErrLoad 4)).
Proof.
  rewrite (dumpLoop_stops_at_first_failure Fixture.load 10 1 8 4 []).
  - reflexivity.
  - unfold inInt32, MaxInt32. lia.
  - unfold inInt32, MaxInt32. lia.
  - lia.
  - reflexivity.
  - intros h Hh. unfold Fixture.load.
    destruct (Z.eqb h 2); [discriminate|].
    destruct (Z.eqb h 4) eqn:H4; [apply Z.eqb_eq in H4; lia | discriminate].
  - simpl. lia.
Defined.

Lemma dumpLoop_max_to_never_ends_witness :
  dumpLoop (fun _ => LoadErrNotFound) 50 (MaxInt32 - 3) MaxInt32 [] = None.
Proof.
  apply dumpLoop_max_to_never_ends.
  - unfold inInt32, MaxInt32. lia.
  - intros h. discriminate.
Defined.

(* ------------------------------------------------------------------ *)
(** ** The fetch and persist stages *)

Lemma fetchLoop_spec (BlockByHeight : Z -> option Block) fuel ht :
  map Some (snd (fetchLoop BlockByHeight fuel ht)) =
    map BlockByHeight (zrange ht (length (snd (fetchLoop BlockByHeight fuel ht)))) /\
  ((fst (fetchLoop BlockByHeight fuel ht) = zrange ht fuel /\
    length (snd (fetchLoop BlockByHeight fuel ht)) = fuel) \/
   (exists k, k < fuel /\ length (snd (fetchLoop BlockByHeight fuel ht)) = k /\
      fst (fetchLoop BlockByHeight fuel ht) = zrange ht (S k) /\
      BlockByHeight (ht + Z.of_nat k)%Z = None)).
Proof.
  revert ht. induction fuel as [|fuel IH]; intros ht; cbn [fetchLoop].
  - split; [reflexivity|]. left. auto.
  - destruct (BlockByHeight ht) as [b|] eqn:Hb.
    + specialize (IH (ht + 1)%Z).
      destruct (fetchLoop BlockByHeight fuel (ht + 1)) as [hs bs] eqn:Hf.
      cbn [fst snd] in *.
      destruct IH as [Hmap Hcase]. split.
      * cbn [length]. rewrite zrange_S. cbn [map]. rewrite Hb, Hmap. reflexivity.
      * cbn [length]. destruct Hcase as [[-> ->] | (k & Hk & -> & -> & Hnone)].
        -- left. rewrite zrange_S. auto.
        -- right. exists (S k). split; [lia|]. split; [reflexivity|].
           split; [rewrite (zrange_S ht (S k)); reflexivity|].
           rewrite <- Hnone. f_equal. lia.
    + cbn [fst snd length]. split; [reflexivity|]. right. exists 0. split; [lia|].
      split; [reflexivity|]. split.
      * unfold zrange. simpl. rewrite Z.add_0_r. reflexivity.
      * rewrite Z.add_0_r. exact Hb.
Qed.

Lemma getBlock_fetches_in_order_spec (BlockByHeight : Z -> option Block) bestHeight :
  let n := Z.to_nat (Z.min 200000 bestHeight) in
  map Some (snd (getBlock BlockByHeight bestHeight)) =
    map BlockByHeight (zrange 0 (length (snd (getBlock BlockByHeight bestHeight)))) /\
  ((fst (getBlock BlockByHeight bestHeight) = zrange 0 n /\
    length (snd (getBlock BlockByHeight bestHeight)) = n) \/
   (exists k, k < n /\ length (snd (getBlock BlockByHeight bestHeight)) = k /\
      fst (getBlock BlockByHeight bestHeight) = zrange 0 (S k) /\
      BlockByHeight (Z.of_nat k) = None)).
Proof.
  intros n. unfold getBlock.
  assert (Hn : Z.to_nat (getBlockToHeight bestHeight - 0) = n).
  { unfold n, getBlockToHeight. rewrite Z.sub_0_r.
    destruct (200000 >? bestHeight)%Z eqn:Hc.
    - apply Z.gtb_lt in Hc. rewrite Z.min_r by lia. reflexivity.
    - rewrite Z.gtb_ltb in Hc. apply Z.ltb_ge in Hc. rewrite Z.min_l by lia. reflexivity. }
  rewrite Hn. exact (fetchLoop_spec BlockByHeight n 0%Z).
Qed.

(** The fetch stage reads heights [0, 1, 2, ...] in order, without gaps: it
    sends, in order, the blocks returned for heights [0 .. k-1] and either
    reads all heights below [min(200000, best height)] or stops at the first
    height [k] whose read fails. *)
Theorem getBlock_fetches_in_order (BlockByHeight : Z -> option Block) bestHeight :
  let n := Z.to_nat (Z.min 200000 bestHeight) in
  map Some (snd (getBlock BlockByHeight bestHeight)) =
    map BlockByHeight (zrange 0 (length (snd (getBlock BlockByHeight bestHeight)))) /\
  ((fst (getBlock BlockByHeight bestHeight) = zrange 0 n /\
    length (snd (getBlock BlockByHeight bestHeight)) = n) \/
   (exists k, k < n /\ length (snd (getBlock BlockByHeight bestHeight)) = k /\
      fst (getBlock BlockByHeight bestHeight) = zrange 0 (S k) /\
      BlockByHeight (Z.of_nat k) = None)).
Proof. apply getBlock_fetches_in_order_spec. Qed.

Lemma saveChanges_saves_prefix_in_order_spec {S : Type}
    (Save : S -> Z -> list Change -> option S) store batches :
  (forall b, In b batches -> b <> []) ->
  exists pre rest,
    batches = pre ++ rest /\
    fst (saveChanges Save store batches) = map (fun b => (batchKey b, b)) pre /\
    ((snd (saveChanges Save store batches) = None /\ rest = []) \/
     (snd (saveChanges Save store batches) = Some SaveFailed /\ pre <> [])).
Proof.
  revert store. induction batches as [|b rest IH]; intros store Hne; simpl.
  - exists [], []. auto.
  - destruct b as [|c0 cs]; [exfalso; apply (Hne []); [left|]; reflexivity|].
    destruct (Save store (chg_Height c0) (c0 :: cs)) as [store'|].
    + destruct (IH store' (fun b Hb => Hne b (or_intror Hb)))
        as (pre & rest' & -> & Hcalls & Hend).
      destruct (saveChanges Save store' (pre ++ rest')) as [calls r]. simpl in *.
      exists ((c0 :: cs) :: pre), rest'. split; [reflexivity|].
      split; [rewrite Hcalls; reflexivity|].
      destruct Hend as [[-> ->] | [-> _]]; [left | right]; split; auto; discriminate.
    + exists [c0 :: cs], rest. split; [reflexivity|]. split; [reflexivity|].
      right. split; [reflexivity|discriminate].
Qed.



Lemma saveChanges_saveAll {S : Type} (Save : S -> Z -> list Change -> option S)
    (store : S) (batches : list (list Change)) :
  (forall b, In b batches -> b <> []) ->
  exists pre rest,
    batches = pre ++ rest /\
    fst (saveChanges Save store batches) = map (fun b => (batchKey b, b)) pre /\
    ((snd (saveChanges Save store batches) = None /\ rest = [] /\
      exists store', saveAll Save store batches = Some store') \/
     (snd (saveChanges Save store batches) = Some SaveFailed /\
      exists pre' b st, pre = pre' ++ [b] /\ saveAll Save store pre' = Some st /\
                        Save st (batchKey b) b = None)).
Proof.
  revert store. induction batches as [|b rest IH]; intros store Hne; simpl.
  - exists [], []. split; [reflexivity|]. split; [reflexivity|].
    left. split; [reflexivity|]. split; [reflexivity|]. eauto.
  - destruct b as [|c0 cs]; [exfalso; apply (Hne []); [left|]; reflexivity|].
    cbn [batchKey].
    destruct (Save store (chg_Height c0) (c0 :: cs)) as [store'|] eqn:Hs.
    + destruct (IH store' (fun b Hb => Hne b (or_intror Hb)))
        as (pre & rest' & Hsplit & Hcalls & Hend).
      destruct (saveChanges Save store' rest) as [calls r]. simpl in *.
      exists ((c0 :: cs) :: pre), rest'. split; [rewrite Hsplit; reflexivity|].
      split; [rewrite Hcalls; reflexivity|].
      destruct Hend as [(-> & -> & st & Hst) | (-> & pre' & b & st & -> & Hst & Hb)].
      * left. split; [reflexivity|]. split; [reflexivity|]. exists st. exact Hst.
      * right. split; [reflexivity|]. exists ((c0 :: cs) :: pre'), b, st.
        split; [reflexivity|]. split; [|exact Hb]. simpl. rewrite Hs. exact Hst.
    + exists [c0 :: cs], rest. split; [reflexivity|]. split; [reflexivity|].
      right. split; [reflexivity|]. exists [], (c0 :: cs), store.
      split; [reflexivity|]. split; [reflexivity|]. exact Hs.
Qed.

(** The persist stage first opens the chain repo; if that fails it calls
    [Save] on nothing.  Otherwise it calls [Save] on a prefix of the
    (non-empty) batches it receives, in order, each under the height of its
    first change: it ends without error, having saved every batch, when
    every [Save] succeeds; otherwise the last call is the first [Save] that
    fails, after which the stage stops. *)
Theorem saveStage_saves_prefix_in_order {S : Type} (OpenChainRepo : bool)
    (Save : S -> Z -> list Change -> option S) (store : S) (batches : list (list Change)) :
  (forall b, In b batches -> b <> []) ->
  (OpenChainRepo = false ->
   saveStage OpenChainRepo Save store batches = ([], Some SaveErrOpenChainRepo)) /\
  (OpenChainRepo = true ->
   exists pre rest,
     batches = pre ++ rest /\
     fst (saveStage OpenChainRepo Save store batches) = map (fun b => (batchKey b, b)) pre /\
     ((snd (saveStage OpenChainRepo Save store batches) = None /\ rest = [] /\
       exists store', saveAll Save store batches = Some store') \/
      (snd (saveStage OpenChainRepo Save store batches) = Some (SaveErrSave SaveFailed) /\
       exists pre' b st, pre = pre' ++ [b] /\ saveAll Save store pre' = Some st /\
                         Save st (batchKey b) b = None))).
Proof.
  intros Hne. split; intros Ho; subst OpenChainRepo; unfold saveStage; [reflexivity|].
  destruct (saveChanges_saveAll Save store batches Hne) as (pre & rest & Hsplit & Hcalls & Hend).
  destruct (saveChanges Save store batches) as [calls r]. simpl in *.
  exists pre, rest. split; [exact Hsplit|]. split; [exact Hcalls|].
  destruct Hend as [(-> & Hr) | (-> & Hr)]; [left | right]; split; auto.
Qed.

Lemma saveStage_saves_prefix_in_order_witness :
  (false = false ->
   saveStage false (fun (s : list Z) h _ => Some (h :: s)) [] [Fixture.batch1] =
     ([], Some SaveErrOpenChainRepo)) /\
  (true = true ->
   exists pre rest,
     [Fixture.batch1; Fixture.oneClaim 2%Z; Fixture.oneClaim 3%Z] = pre ++ rest /\
     fst (saveStage true Fixture.store_fail2 [] [Fixture.batch1; Fixture.oneClaim 2%Z; Fixture.oneClaim 3%Z]) =
       map (fun b => (batchKey b, b)) pre /\
     ((snd (saveStage true Fixture.store_fail2 [] [Fixture.batch1; Fixture.oneClaim 2%Z; Fixture.oneClaim 3%Z]) = None /\
       rest = [] /\
       exists store', saveAll Fixture.store_fail2 [] [Fixture.batch1; Fixture.oneClaim 2%Z; Fixture.oneClaim 3%Z] = Some store') \/
      (snd (saveStage true Fixture.store_fail2 [] [Fixture.batch1; Fixture.oneClaim 2%Z; Fixture.oneClaim 3%Z]) =
         Some (SaveErrSave SaveFailed) /\
       exists pre' b st, pre = pre' ++ [b] /\ saveAll Fixture.store_fail2 [] pre' = Some st /\
                         Fixture.store_fail2 st (batchKey b) b = None))) /\
  saveStage true Fixture.store_fail2 [] [Fixture.batch1; Fixture.oneClaim 2%Z; Fixture.oneClaim 3%Z] =
    ([(1%Z, Fixture.batch1); (2%Z, Fixture.oneClaim 2%Z)], Some (SaveErrSave SaveFailed)).
Proof.
  split.
  - apply (saveStage_saves_prefix_in_order false (fun (s : list Z) h _ => Some (h :: s)) []).
    intros b Hb. simpl in Hb. destruct Hb as [<- | []]; discriminate.
  - split; [|reflexivity].
    apply (saveStage_saves_prefix_in_order true Fixture.store_fail2 []).
    intros b Hb. simpl in Hb. destruct Hb as [<- | [<- | [<- | []]]]; discriminate.
Defined.

(* ------------------------------------------------------------------ *)
(** ** The unspent-output view across a block *)

Lemma addTxOutsFrom_keeps (h : Hash) (height i : Z) (outs : list TxOut) (view : View)
    (op : OutPoint) :
  is_Some (view !! op) -> is_Some (addTxOutsFrom h height i outs view !! op).
Proof.
  revert i view. induction outs as [|o rest IH]; intros i view Hs; simpl; [exact Hs|].
  apply IH. apply lookup_insert_is_Some'. right. exact Hs.
Qed.

Lemma processTxs_view (DecodeClaimScript : Script -> DecodeResult)
    (NewClaimID : OutPoint -> ClaimID) (IsCoinBase : Tx -> bool) (height : Z) (txs : list Tx)
    (view : View) (evs : list ViewEvent) (acc : list Change) (view' : View)
    (evs' : list ViewEvent) (chs : list Change) :
  processTxs DecodeClaimScript NewClaimID IsCoinBase height txs (view, evs, acc) =
    Done (view', evs', chs) ->
  view' = fold_left (fun v tx => AddTxOuts tx height v) txs view.
Proof.
  revert view evs acc. induction txs as [|tx rest IH]; intros view evs acc H;
    cbn [processTxs] in H.
  - inversion H; subst. reflexivity.
  - destruct (processTx DecodeClaimScript NewClaimID IsCoinBase height tx (view, evs, acc))
      as [[[view1 evs1] chs1]|p] eqn:Ht; [|discriminate].
    destruct (processTx_shape _ _ _ _ _ _ _ _ _ _ _ Ht) as (-> & _).
    exact (IH _ _ _ H).
Qed.

(** After a block, the view is the one before it with the outputs of every
    transaction of the block registered in block order, coinbase included;
    no entry is ever removed, so outputs spent in the block stay visible. *)
Theorem processOneBlock_view_only_grows (DecodeClaimScript : Script -> DecodeResult)
    (NewClaimID : OutPoint -> ClaimID) (IsCoinBase : Tx -> bool)
    (block : Block) (view view' : View) (evs : list ViewEvent) (chs : list Change) :
  processOneBlock DecodeClaimScript NewClaimID IsCoinBase block view =
    Done (view', evs, chs) ->
  view' = fold_left (fun v tx => AddTxOuts tx (blk_Height block) v)
            (blk_Transactions block) view /\
  (forall op, is_Some (view !! op) -> is_Some (view' !! op)).
Proof.
  unfold processOneBlock. intros H.
  pose proof (processTxs_view _ _ _ _ _ _ _ _ _ _ _ H) as Hv.
  split; [exact Hv|]. subst view'. clear H.
  generalize (blk_Transactions block) as txs. intros txs.
  revert view. induction txs as [|tx rest IH]; intros view op Hs; simpl; [exact Hs|].
  apply IH. apply addTxOutsFrom_keeps. exact Hs.
Qed.

Lemma processOneBlock_view_only_grows_witness :
  Fixture.view1 =
    fold_left (fun v tx => AddTxOuts tx (blk_Height Fixture.block1) v)
      (blk_Transactions Fixture.block1) ∅ /\
  (forall op, is_Some ((∅ : View) !! op) -> is_Some (Fixture.view1 !! op)).
Proof.
  apply (processOneBlock_view_only_grows Fixture.decode Fixture.newClaimID
           Fixture.isCoinBase Fixture.block1 ∅ Fixture.view1
           (Fixture.stateOf (processOneBlock Fixture.decode Fixture.newClaimID
              Fixture.isCoinBase Fixture.block1 ∅)).1.2
           (Fixture.stateOf (processOneBlock Fixture.decode Fixture.newClaimID
              Fixture.isCoinBase Fixture.block1 ∅)).2).
  vm_compute. reflexivity.
Defined.

(* ------------------------------------------------------------------ *)
(** ** Creating and spending a claim output *)

(** The creation change the output loop builds for a decoded claim script. *)
Definition createTypeOf (op : ClaimOpcode) : ChangeType :=
  match op with
  | OP_CLAIMNAME => AddClaim
  | OP_SUPPORTCLAIM => AddSupport
  | OP_UPDATECLAIM => UpdateClaim
  end.

Definition claimIDOf (NewClaimID : OutPoint -> ClaimID) (cs : ClaimScript)
    (op : OutPoint) : ClaimID :=
  match cs_Opcode cs with
  | OP_CLAIMNAME => NewClaimID op
  | _ => goCopy zeroClaimID (cs_ClaimID cs)
  end.

Lemma processTxOuts_contains (DecodeClaimScript : Script -> DecodeResult)
    (NewClaimID : OutPoint -> ClaimID) (height : Z) (h : Hash) (i : Z)
    (outs : list TxOut) (acc chs : list Change) (k : nat) (o : TxOut) (cs : ClaimScript) :
  processTxOuts DecodeClaimScript NewClaimID height h i outs acc = Done chs ->
  outs !! k = Some o -> DecodeClaimScript (txout_PkScript o) = DecodeOk cs ->
  In (mkChange height (createTypeOf (cs_Opcode cs)) (cs_Name cs) (h, i + Z.of_nat k)%Z
        (claimIDOf NewClaimID cs (h, i + Z.of_nat k)%Z) (txout_Value o)) chs.
Proof.
  revert i acc k. induction outs as [|o' rest IH]; intros i acc k H Hk Hd; [discriminate|].
  cbn [processTxOuts] in H.
  destruct k as [|k]; simpl in Hk.
  - inversion Hk; subst o'. rewrite Hd in H.
    destruct (processTxOuts_shape _ _ _ _ _ _ _ _ H) as (c & -> & _).
    apply in_or_app. left. apply in_or_app. right. left.
    rewrite Z.add_0_r. unfold claimIDOf. destruct (cs_Opcode cs); reflexivity.
  - replace (i + Z.of_nat (S k))%Z with (i + 1 + Z.of_nat k)%Z by lia.
    destruct (DecodeClaimScript (txout_PkScript o')) as [cs'| |]; [| |discriminate];
      eapply IH; eauto.
Qed.

(** Round trip between the output and input loops: when a non-coinbase
    transaction is processed and its output [k] carries a claim script, the
    changes contain the creation at [(tx hash, k)], and a later input
    spending [(tx hash, k)] against the updated view yields the matching
    spend: [SpendClaim] for a claim or an update, [SpendSupport] for a
    support, with the same name, outpoint and claim ID. *)
Theorem created_output_spend_roundtrip (DecodeClaimScript : Script -> DecodeResult)
    (NewClaimID : OutPoint -> ClaimID) (IsCoinBase : Tx -> bool)
    (height : Z) (tx : Tx) (view view' : View) (evs evs' : list ViewEvent)
    (acc chs : list Change) (k : nat) (o : TxOut) (cs : ClaimScript)
    (height2 : Z) (evs2 : list ViewEvent) (acc2 : list Change) :
  IsCoinBase tx = false ->
  processTx DecodeClaimScript NewClaimID IsCoinBase height tx (view, evs, acc) =
    Done (view', evs', chs) ->
  tx_TxOut tx !! k = Some o ->
  DecodeClaimScript (txout_PkScript o) = DecodeOk cs ->
  exists c s,
    In c chs /\ chg_OutPoint c = (tx_Hash tx, Z.of_nat k) /\
    isCreateType (chg_Type c) = true /\
    processTxIns DecodeClaimScript NewClaimID height2 [(tx_Hash tx, Z.of_nat k)]
      view' evs2 acc2 =
      Done (evs2 ++ [EvLookupEntry (tx_Hash tx, Z.of_nat k)], acc2 ++ [s]) /\
    chg_Type s = spendTypeOf (chg_Type c) /\ chg_Name s = chg_Name c /\
    chg_OutPoint s = chg_OutPoint c /\ chg_ClaimID s = chg_ClaimID c.
Proof.
  intros Hcb H Hk Hd.
  pose proof (processTx_shape _ _ _ _ _ _ _ _ _ _ _ H) as (Hv & _).
  unfold processTx in H. rewrite Hcb in H.
  destruct (processTxIns DecodeClaimScript NewClaimID height (tx_TxIn tx)
              (AddTxOuts tx height view) (evs ++ [EvAddTxOuts (tx_Hash tx)]) acc)
    as [[evs1 chs1]|p]; [|discriminate].
  destruct (processTxOuts DecodeClaimScript NewClaimID height (tx_Hash tx) 0
              (tx_TxOut tx) chs1) as [chs2|p] eqn:Ho; [|discriminate].
  inversion H; subst view' evs' chs.
  pose proof (processTxOuts_contains _ _ _ _ _ _ _ _ _ _ _ Ho Hk Hd) as Hin.
  rewrite Z.add_0_l in Hin.
  eexists. eexists. split; [exact Hin|]. split; [reflexivity|].
  split; [destruct (cs_Opcode cs); reflexivity|]. split.
  - pose proof (addTxOutsFrom_lookup (tx_Hash tx) height 0 (tx_TxOut tx) view k o Hk)
      as Hl.
    rewrite Z.add_0_l in Hl.
    assert (Hl' : AddTxOuts tx height view !! ((tx_Hash tx, Z.of_nat k) : OutPoint) =
                  Some (mkUtxoEntry (txout_Value o) (txout_PkScript o) height)) by exact Hl.
    simpl. rewrite Hl'. cbn [ue_PkScript]. rewrite Hd. reflexivity.
  - unfold claimIDOf. destruct (cs_Opcode cs); simpl; auto.
Qed.

Lemma created_output_spend_roundtrip_witness :
  exists c s,
    In c (Fixture.resultTx21).2 /\ chg_OutPoint c = (21, 0)%Z /\
    isCreateType (chg_Type c) = true /\
    processTxIns Fixture.decode Fixture.newClaimID 3 [(21, Z.of_nat 0)%Z]
      (Fixture.resultTx21).1.1 [] [] =
      Done ([] ++ [EvLookupEntry (21, Z.of_nat 0)%Z], [] ++ [s]) /\
    chg_Type s = spendTypeOf (chg_Type c) /\ chg_Name s = chg_Name c /\
    chg_OutPoint s = chg_OutPoint c /\ chg_ClaimID s = chg_ClaimID c.
Proof.
  apply (created_output_spend_roundtrip Fixture.decode Fixture.newClaimID
           Fixture.isCoinBase 2 Fixture.tx21 Fixture.view1 (Fixture.resultTx21).1.1
           [] (Fixture.resultTx21).1.2 [] (Fixture.resultTx21).2 0
           (mkTxOut 7 [Byte.x02; Byte.x61]) (mkClaimScript OP_UPDATECLAIM [Byte.x61] Fixture.claimIdA)
           3 [] []).
  - reflexivity.
  - vm_compute. reflexivity.
  - reflexivity.
  - reflexivity.
Defined.

(* ------------------------------------------------------------------ *)
(** ** Replay: executing a batch and advancing the trie *)

(** The number of [ct.AppendBlock] calls in a trace. *)
Definition appendsOf (effs : list Effect) : nat :=
  length (List.filter (fun e => match e with EffAppendBlock => true | _ => false end) effs).

Section ReplayExtras.

Context {T : Type} (ct : ClaimTrieOps T) (env : ReplayEnv T).

Lemma applyChanges_app (t : T) (l1 l2 : list Change) (effs : list Effect) :
  applyChanges ct t (l1 ++ l2) effs =
    match applyChanges ct t l1 effs with
    | (effs1, inl t1) => applyChanges ct t1 l2 effs1
    | r => r
    end.
Proof.
  revert t effs. induction l1 as [|c rest IH]; intros t effs; simpl; [reflexivity|].
  destruct (executeChange ct t c); [apply IH | reflexivity].
Qed.

Lemma applyChanges_success_executes_all_spec (t : T) (changes : list Change)
    (effs effs' : list Effect) (t' : T) :
  applyChanges ct t changes effs = (effs', inl t') ->
  effs' = effs ++ map (fun c => EffExecute (chg_Type c)) changes /\
  Forall (fun c => isSpendType (chg_Type c) || isCreateType (chg_Type c) = true) changes.
Proof.
  revert t effs. induction changes as [|c rest IH]; intros t effs H; simpl in H.
  - inversion H; subst. rewrite app_nil_r. auto.
  - destruct (executeChange ct t c) as [t1|] eqn:He; [|discriminate].
    assert (Hty : isSpendType (chg_Type c) || isCreateType (chg_Type c) = true /\
                  match chg_Type c with
                  | OtherChangeType _ => effs
                  | ty => effs ++ [EffExecute ty] end = effs ++ [EffExecute (chg_Type c)]).
    { unfold executeChange in He. destruct (chg_Type c); auto; discriminate. }
    destruct Hty as [Hty Heffs]. rewrite Heffs in H.
    destruct (IH _ _ H) as [-> Hf]. split.
    + rewrite <- app_assoc. reflexivity.
    + constructor; assumption.
Qed.

(** A batch that is applied without error runs one claim-trie operation per
    change, in the stored order, and contains only the five known change
    types. *)
Theorem applyChanges_success_executes_all (t : T) (changes : list Change)
    (effs effs' : list Effect) (t' : T) :
  applyChanges ct t changes effs = (effs', inl t') ->
  effs' = effs ++ map (fun c => EffExecute (chg_Type c)) changes /\
  Forall (fun c => isSpendType (chg_Type c) || isCreateType (chg_Type c) = true) changes.
Proof. apply applyChanges_success_executes_all_spec. Qed.

(** The first change whose operation fails ends the batch: the operations of
    the changes before it have run, its own operation has been attempted
    (an unknown change type calls none), and no later change is executed. *)
Theorem applyChanges_stops_at_failing_change (t : T) (pre : list Change) (bad : Change)
    (post : list Change) (effs effsP : list Effect) (tP : T) :
  applyChanges ct t pre effs = (effsP, inl tP) ->
  executeChange ct tP bad = None ->
  applyChanges ct t (pre ++ bad :: post) effs =
    (effsP ++ (if isSpendType (chg_Type bad) || isCreateType (chg_Type bad)
               then [EffExecute (chg_Type bad)] else []),
     inr (ErrExecuteChange bad)).
Proof.
  intros Hpre Hbad. rewrite applyChanges_app, Hpre. simpl. rewrite Hbad.
  destruct (chg_Type bad); simpl; rewrite ?app_nil_r; reflexivity.
Qed.

Lemma appendBlock_success (t : T) (effs effs' : list Effect) (t' : T) :
  appendBlock ct env t effs = (effs', inl t') ->
  effs' = effs ++ [EffAppendBlock; EffBlockByHeight (ct_Height ct t')] /\
  exists block, env_BlockByHeight env (ct_Height ct t') = Some block /\
                ct_MerkleHash ct t' = blk_ClaimTrie block.
Proof.
  unfold appendBlock. intros H.
  destruct (ct_AppendBlock ct t) as [t1|]; [|discriminate].
  destruct (env_BlockByHeight env (ct_Height ct t1)) as [b|] eqn:Hb; [|discriminate].
  destruct (Z.eqb (ct_MerkleHash ct t1) (blk_ClaimTrie b)) eqn:Heq; [|discriminate].
  inversion H; subst. split; [rewrite <- app_assoc; reflexivity|].
  exists b. split; [exact Hb | apply Z.eqb_eq; exact Heq].
Qed.

Lemma replayStep_success (ht : Z) (t : T) (effs effs' : list Effect) (t' : T) :
  replayStep ct env ht t effs = (effs', inl t') ->
  (exists s, effs' = effs ++ s /\ appendsOf s = 1) /\
  exists block, env_BlockByHeight env (ct_Height ct t') = Some block /\
                ct_MerkleHash ct t' = blk_ClaimTrie block.
Proof.
  unfold replayStep. intros H.
  assert (Hgen : forall changes,
            applyAndAppend ct env t changes (effs ++ [EffLoad (ht + 1)]) = (effs', inl t') ->
            (exists s, effs' = effs ++ s /\ appendsOf s = 1) /\
            exists block, env_BlockByHeight env (ct_Height ct t') = Some block /\
                          ct_MerkleHash ct t' = blk_ClaimTrie block).
  { intros changes Ha. unfold applyAndAppend in Ha.
    destruct (applyChanges ct t changes (effs ++ [EffLoad (ht + 1)])) as [effs1 [t1|e]]
      eqn:Hc; [|discriminate].
    destruct (applyChanges_success_executes_all_spec _ _ _ _ _ Hc) as [-> _].
    destruct (appendBlock_success _ _ _ _ Ha) as [-> Hblk]. split; [|exact Hblk].
    eexists. split; [rewrite <- !app_assoc; reflexivity|].
    unfold appendsOf. rewrite !List.filter_app, !List.length_app.
    assert (H0 : forall l : list Change,
              length (List.filter (fun e => match e with EffAppendBlock => true | _ => false end)
                        (map (fun c => EffExecute (chg_Type c)) l)) = 0).
    { induction l; simpl; auto. }
    rewrite H0. reflexivity. }
  destruct (env_Load env (ht + 1)); [exact (Hgen _ H) | exact (Hgen [] H) | discriminate].
Qed.

Lemma replayLoop_success_matches_header_spec (n : nat) (ht : Z) (t : T)
    (effs effs' : list Effect) (t' : T) :
  replayLoop ct env (S n) ht t effs = (effs', inl t') ->
  (exists s, effs' = effs ++ s /\ appendsOf s = S n) /\
  exists block, env_BlockByHeight env (ct_Height ct t') = Some block /\
                ct_MerkleHash ct t' = blk_ClaimTrie block.
Proof.
  revert ht t effs. induction n as [|n IH]; intros ht t effs H; cbn [replayLoop] in H.
  - destruct (replayStep ct env ht t effs) as [effs1 [t1|e]] eqn:Hs; [|discriminate].
    inversion H; subst. exact (replayStep_success _ _ _ _ _ Hs).
  - destruct (replayStep ct env ht t effs) as [effs1 [t1|e]] eqn:Hs; [|discriminate].
    destruct (replayStep_success _ _ _ _ _ Hs) as [(s1 & -> & H1) _].
    destruct (IH _ _ _ H) as [(s2 & -> & H2) Hblk]. split; [|exact Hblk].
    exists (s1 ++ s2). split; [rewrite <- app_assoc; reflexivity|].
    unfold appendsOf in *. rewrite List.filter_app, List.length_app, H1, H2. reflexivity.
Qed.

(** A successful replay of [n+1] heights advances the claim trie exactly
    once per height, and the trie it ends with agrees with the [ClaimTrie]
    field of the block header at its height. *)
Theorem replayLoop_success_matches_header (n : nat) (ht : Z) (t : T)
    (effs effs' : list Effect) (t' : T) :
  replayLoop ct env (S n) ht t effs = (effs', inl t') ->
  (exists s, effs' = effs ++ s /\ appendsOf s = S n) /\
  exists block, env_BlockByHeight env (ct_Height ct t') = Some block /\
                ct_MerkleHash ct t' = blk_ClaimTrie block.
Proof. apply replayLoop_success_matches_header_spec. Qed.

End ReplayExtras.

Lemma applyChanges_success_executes_all_witness :
  applyChanges Fixture.trie 0%Z (Fixture.oneClaim 1%Z ++ Fixture.oneClaim 2%Z) [] =
    ([EffExecute AddClaim; EffExecute AddClaim], inl 0%Z) /\
  (([] : list Effect) ++ map (fun c => EffExecute (chg_Type c))
     (Fixture.oneClaim 1%Z ++ Fixture.oneClaim 2%Z) = [EffExecute AddClaim; EffExecute AddClaim] /\
   Forall (fun c => isSpendType (chg_Type c) || isCreateType (chg_Type c) = true)
     (Fixture.oneClaim 1%Z ++ Fixture.oneClaim 2%Z)).
Proof.
  assert (H : applyChanges Fixture.trie 0%Z (Fixture.oneClaim 1%Z ++ Fixture.oneClaim 2%Z) [] =
              ([EffExecute AddClaim; EffExecute AddClaim], inl 0%Z)) by reflexivity.
  split; [exact H|].
  apply (applyChanges_success_executes_all Fixture.trie 0%Z _ [] _ 0%Z H).
Defined.

Lemma applyChanges_stops_at_failing_change_witness :
  applyChanges Fixture.trie 0%Z
    (Fixture.oneClaim 1%Z ++ mkChange 1 (OtherChangeType 9) [] (1, 1)%Z [] 0
       :: Fixture.oneClaim 2%Z) [] =
    ([EffExecute AddClaim] ++ [], inr (ErrExecuteChange (mkChange 1 (OtherChangeType 9) [] (1, 1)%Z [] 0))).
Proof.
  apply (applyChanges_stops_at_failing_change Fixture.trie 0%Z (Fixture.oneClaim 1%Z)
           (mkChange 1 (OtherChangeType 9) [] (1, 1)%Z [] 0) (Fixture.oneClaim 2%Z)
           [] [EffExecute AddClaim] 0%Z).
  - reflexivity.
  - reflexivity.
Defined.

Lemma replayLoop_success_matches_header_witness :
  replayLoop Fixture.trie (Fixture.env Fixture.load) 2 0%Z 0%Z [] =
    ([EffLoad 1%Z; EffExecute AddClaim; EffAppendBlock; EffBlockByHeight 1%Z;
      EffLoad 2%Z; EffAppendBlock; EffBlockByHeight 2%Z], inl 2%Z) /\
  (exists s, [EffLoad 1%Z; EffExecute AddClaim; EffAppendBlock; EffBlockByHeight 1%Z;
              EffLoad 2%Z; EffAppendBlock; EffBlockByHeight 2%Z] = [] ++ s /\ appendsOf s = 2) /\
  exists block, env_BlockByHeight (Fixture.env Fixture.load) (ct_Height Fixture.trie 2%Z) = Some block /\
                ct_MerkleHash Fixture.trie 2%Z = blk_ClaimTrie block.
Proof.
  assert (H : replayLoop Fixture.trie (Fixture.env Fixture.load) 2 0%Z 0%Z [] =
    ([EffLoad 1%Z; EffExecute AddClaim; EffAppendBlock; EffBlockByHeight 1%Z;
      EffLoad 2%Z; EffAppendBlock; EffBlockByHeight 2%Z], inl 2%Z)) by reflexivity.
  split; [exact H|].
  exact (replayLoop_success_matches_header Fixture.trie (Fixture.env Fixture.load)
           1 0%Z 0%Z [] _ 2%Z H).
Defined.

(* ------------------------------------------------------------------ *)
(** ** Claim IDs copied from scripts *)

Lemma skipn_repeat_sub {A : Type} (n m : nat) (x : A) :
  skipn n (repeat x m) = repeat x (m - n).
Proof.
  revert m. induction n as [|n IH]; intros [|m]; simpl; auto.
Qed.

Lemma goCopy_zeroClaimID (src : list Byte.byte) :
  goCopy zeroClaimID src = claimIDCopy src.
Proof.
  unfold goCopy, zeroClaimID, claimIDCopy. rewrite repeat_length.
  rewrite skipn_repeat_sub. reflexivity.
Qed.

Lemma processTxIns_contains (DecodeClaimScript : Script -> DecodeResult)
    (NewClaimID : OutPoint -> ClaimID) (height : Z) (ins : list OutPoint) (view : View)
    (evs : list ViewEvent) (acc : list Change) (evs' : list ViewEvent) (chs : list Change)
    (op : OutPoint) (e : UtxoEntry) (cs : ClaimScript) :
  processTxIns DecodeClaimScript NewClaimID height ins view evs acc = Done (evs', chs) ->
  In op ins -> view !! op = Some e -> DecodeClaimScript (ue_PkScript e) = DecodeOk cs ->
  exists c, In c chs /\ chg_OutPoint c = op /\
    chg_ClaimID c = claimIDOf NewClaimID cs op.
Proof.
  revert evs acc. induction ins as [|op' rest IH]; intros evs acc H Hin He Hd; [contradiction|].
  cbn [processTxIns] in H.
  destruct (decide (op' = op)) as [<-|Hne].
  - rewrite He, Hd in H.
    destruct (processTxIns_shape _ _ _ _ _ _ _ _ _ H) as [_ (s & -> & _)].
    eexists. split; [apply in_or_app; left; apply in_or_app; right; left; reflexivity|].
    unfold claimIDOf. destruct (cs_Opcode cs); simpl; auto.
  - destruct Hin as [Heq|Hin]; [contradiction|].
    destruct (view !! op') as [e'|]; [|discriminate].
    destruct (DecodeClaimScript (ue_PkScript e')); [| |discriminate]; eapply IH; eauto.
Qed.

(** The claim ID of an update or support change is the script's claim ID
    copied into a zeroed 20-byte array: cut to 20 bytes when longer, padded
    with zero bytes when shorter; this holds for the creation at an output
    and for the spend of an input alike. *)
Theorem processTx_claimID_truncated_or_padded (DecodeClaimScript : Script -> DecodeResult)
    (NewClaimID : OutPoint -> ClaimID) (IsCoinBase : Tx -> bool)
    (height : Z) (tx : Tx) (view view' : View) (evs evs' : list ViewEvent)
    (acc chs : list Change) :
  IsCoinBase tx = false ->
  processTx DecodeClaimScript NewClaimID IsCoinBase height tx (view, evs, acc) =
    Done (view', evs', chs) ->
  (forall k o cs, tx_TxOut tx !! k = Some o ->
     DecodeClaimScript (txout_PkScript o) = DecodeOk cs -> cs_Opcode cs <> OP_CLAIMNAME ->
     exists c, In c chs /\ chg_OutPoint c = (tx_Hash tx, Z.of_nat k) /\
               chg_ClaimID c = claimIDCopy (cs_ClaimID cs)) /\
  (forall op e cs, In op (tx_TxIn tx) -> view' !! op = Some e ->
     DecodeClaimScript (ue_PkScript e) = DecodeOk cs -> cs_Opcode cs <> OP_CLAIMNAME ->
     exists c, In c chs /\ chg_OutPoint c = op /\
               chg_ClaimID c = claimIDCopy (cs_ClaimID cs)).
Proof.
  intros Hcb H.
  pose proof (processTx_shape _ _ _ _ _ _ _ _ _ _ _ H) as (Hv & _).
  unfold processTx in H. rewrite Hcb in H.
  destruct (processTxIns DecodeClaimScript NewClaimID height (tx_TxIn tx)
              (AddTxOuts tx height view) (evs ++ [EvAddTxOuts (tx_Hash tx)]) acc)
    as [[evs1 chs1]|p] eqn:Hi; [|discriminate].
  destruct (processTxOuts DecodeClaimScript NewClaimID height (tx_Hash tx) 0
              (tx_TxOut tx) chs1) as [chs2|p] eqn:Ho; [|discriminate].
  inversion H; subst view' evs' chs.
  assert (Hid : forall cs op, cs_Opcode cs <> OP_CLAIMNAME ->
                  claimIDOf NewClaimID cs op = claimIDCopy (cs_ClaimID cs)).
  { intros cs op Hop. unfold claimIDOf.
    destruct (cs_Opcode cs); [contradiction| |]; apply goCopy_zeroClaimID. }
  split.
  - intros k o cs Hk Hd Hop.
    pose proof (processTxOuts_contains _ _ _ _ _ _ _ _ _ _ _ Ho Hk Hd) as Hin.
    rewrite Z.add_0_l in Hin.
    eexists. split; [exact Hin|]. split; [reflexivity|]. simpl. apply Hid, Hop.
  - intros op e cs Hin He Hd Hop.
    destruct (processTxIns_contains _ _ _ _ _ _ _ _ _ _ _ _ Hi Hin He Hd)
      as (c & Hc & Hcop & Hcid).
    destruct (processTxOuts_shape _ _ _ _ _ _ _ _ Ho) as (c' & -> & _).
    exists c. split; [apply in_or_app; left; exact Hc|]. split; [exact Hcop|].
    rewrite Hcid. apply Hid, Hop.
Qed.

Lemma processTx_claimID_truncated_or_padded_witness :
  ((forall k o cs, tx_TxOut Fixture.tx41 !! k = Some o ->
     Fixture.decodeOdd (txout_PkScript o) = DecodeOk cs -> cs_Opcode cs <> OP_CLAIMNAME ->
     exists c, In c (Fixture.resultTx41).2 /\ chg_OutPoint c = (41, Z.of_nat k)%Z /\
               chg_ClaimID c = claimIDCopy (cs_ClaimID cs)) /\
   (forall op e cs, In op (tx_TxIn Fixture.tx41) -> (Fixture.resultTx41).1.1 !! op = Some e ->
     Fixture.decodeOdd (ue_PkScript e) = DecodeOk cs -> cs_Opcode cs <> OP_CLAIMNAME ->
     exists c, In c (Fixture.resultTx41).2 /\ chg_OutPoint c = op /\
               chg_ClaimID c = claimIDCopy (cs_ClaimID cs))) /\
  claimIDCopy [Byte.x07] = Byte.x07 :: repeat Byte.x00 19 /\
  claimIDCopy (repeat Byte.x08 25) = repeat Byte.x08 20.
Proof.
  split; [|split; reflexivity].
  apply (processTx_claimID_truncated_or_padded Fixture.decodeOdd Fixture.newClaimID
           Fixture.isCoinBase 4%Z Fixture.tx41 Fixture.view40 (Fixture.resultTx41).1.1
           [] (Fixture.resultTx41).1.2 [] (Fixture.resultTx41).2).
  - reflexivity.
  - vm_compute. reflexivity.
Defined.

(* ------------------------------------------------------------------ *)
(** ** The converter end to end: saved heights *)

Lemma sublist_map_list {A B : Type} (f : A -> B) (l1 l2 : list A) :
  l1 `sublist_of` l2 -> List.map f l1 `sublist_of` List.map f l2.
Proof. induction 1; simpl; constructor; assumption. Qed.

Lemma StronglySorted_sublist {A : Type} (R : A -> A -> Prop) (l1 l2 : list A) :
  l1 `sublist_of` l2 -> StronglySorted R l2 -> StronglySorted R l1.
Proof.
  induction 1 as [|x l1 l2 Hs IH|x l1 l2 Hs IH]; intros H.
  - constructor.
  - inversion H as [|? ? Hl2 Hx]; subst. constructor; [exact (IH Hl2)|].
    rewrite Forall_forall in *. intros y Hy. apply Hx.
    eapply elem_of_sublist; [exact Hy | exact Hs].
  - inversion H; subst. auto.
Qed.

Lemma zrange_in (a : Z) (n : nat) (x : Z) :
  In x (zrange a n) -> (a <= x < a + Z.of_nat n)%Z.
Proof.
  unfold zrange. rewrite in_map_iff. intros (k & <- & Hk).
  apply in_seq in Hk. lia.
Qed.

Lemma zrange_sorted (a : Z) (n : nat) : StronglySorted Z.lt (zrange a n).
Proof.
  revert a. induction n as [|n IH]; intros a; [constructor|].
  rewrite zrange_S. constructor; [apply IH|].
  apply List.Forall_forall. intros x Hx. apply zrange_in in Hx. lia.
Qed.

Lemma prefix_sublist {A : Type} (l1 l2 : list A) : l1 `sublist_of` l1 ++ l2.
Proof.
  induction l1 as [|x l1 IH]; simpl; [apply sublist_nil_l | constructor; exact IH].
Qed.

Lemma blocks_heights (BlockByHeight : Z -> option Block) (bs : list Block) (hs : list Z) :
  (forall ht b, BlockByHeight ht = Some b -> blk_Height b = ht) ->
  map Some bs = map BlockByHeight hs -> map blk_Height bs = hs.
Proof.
  intros Hbbh. revert hs. induction bs as [|b bs IH]; intros [|h hs] H;
    simpl in H; try discriminate; [reflexivity|].
  inversion H as [[Hb Hrest]]. simpl. f_equal; [|exact (IH _ Hrest)].
  apply Hbbh. symmetry. exact Hb.
Qed.

Lemma processBlocks_selects (DecodeClaimScript : Script -> DecodeResult)
    (NewClaimID : OutPoint -> ClaimID) (IsCoinBase : Tx -> bool)
    (blocks : list Block) (view : View) (pushed pushed' : list (list Change))
    (r : option PanicReason) :
  processBlocks DecodeClaimScript NewClaimID IsCoinBase blocks view pushed = (pushed', r) ->
  exists sel : list (Block * list Change),
    pushed' = pushed ++ map snd sel /\ map fst sel `sublist_of` blocks /\
    Forall (fun p => snd p <> [] /\
                     Forall (fun c => chg_Height c = blk_Height (fst p)) (snd p)) sel.
Proof.
  revert view pushed. induction blocks as [|b rest IH]; intros view pushed H;
    cbn [processBlocks] in H.
  - inversion H; subst. exists []. rewrite app_nil_r. split; [reflexivity|].
    split; constructor.
  - destruct (processOneBlock DecodeClaimScript NewClaimID IsCoinBase b view)
      as [[[view1 evs1] chs]|p] eqn:Hb.
    + destruct (IH _ _ H) as (sel & -> & Hsub & Hf).
      destruct (length chs =? 0)%nat eqn:Hl.
      * exists sel. split; [reflexivity|]. split; [constructor; exact Hsub | exact Hf].
      * exists ((b, chs) :: sel). split; [simpl; rewrite <- app_assoc; reflexivity|].
        split; [simpl; constructor; exact Hsub|].
        constructor; [|exact Hf]. simpl. split.
        -- intros ->. discriminate.
        -- exact (processOneBlock_heights _ _ _ _ _ _ _ _ Hb).
    + inversion H; subst. exists []. rewrite app_nil_r. split; [reflexivity|].
      split; [apply sublist_nil_l | constructor].
Qed.

(** The converter saves each height at most once and in increasing order,
    every saved height below [min(200000, best height)], provided the chain
    returns for each height the block at that height. *)
Theorem convert_saves_increasing_heights {S : Type}
    (DecodeClaimScript : Script -> DecodeResult) (NewClaimID : OutPoint -> ClaimID)
    (IsCoinBase : Tx -> bool) (BlockByHeight : Z -> option Block) (bestHeight : Z)
    (Save : S -> Z -> list Change -> option S) (store : S) (height : Z) :
  (forall ht b, BlockByHeight ht = Some b -> blk_Height b = ht) ->
  let keys := map fst (snd (convertCommand DecodeClaimScript NewClaimID IsCoinBase
                              BlockByHeight bestHeight Save store height)) in
  StronglySorted Z.lt keys /\ Forall (fun k => 0 <= k < Z.min 200000 bestHeight)%Z keys.
Proof.
  intros Hbbh keys.
  pose proof (getBlock_fetches_in_order_spec BlockByHeight bestHeight) as [Hmap Hlen].
  unfold keys, convertCommand. clear keys.
  destruct (getBlock BlockByHeight bestHeight) as [reads blocks] eqn:Hg.
  cbn [fst snd] in Hmap, Hlen.
  assert (Hn : (length blocks <= Z.to_nat (Z.min 200000 bestHeight))%nat).
  { destruct Hlen as [[_ ->] | (k & Hk & -> & _)]; lia. }
  pose proof (blocks_heights _ _ _ Hbbh Hmap) as Hh. clear Hmap Hlen.
  destruct (processBlocks DecodeClaimScript NewClaimID IsCoinBase blocks ∅ [])
    as [batches r] eqn:Hp.
  destruct (processBlocks_selects _ _ _ _ _ _ _ _ Hp) as (sel & Hb & Hsub & Hf).
  simpl in Hb. subst batches.
  assert (Hne : forall b, In b (map snd sel) -> b <> []).
  { intros b Hbin. apply in_map_iff in Hbin. destruct Hbin as (p & <- & Hpin).
    rewrite List.Forall_forall in Hf. apply (Hf p Hpin). }
  destruct (saveChanges_saves_prefix_in_order_spec Save store (map snd sel) Hne)
    as (pre & rest & Hsplit & Hcalls & _).
  cbn [snd]. rewrite Hcalls, map_map. cbn [fst].
  apply map_eq_app in Hsplit. destruct Hsplit as (selp & selr & -> & <- & _).
  assert (Hkeys : map (fun b => batchKey b) (map snd selp) = map blk_Height (map fst selp)).
  { rewrite !map_map. apply map_ext_in. intros p Hpin.
    rewrite List.Forall_forall in Hf. destruct (Hf p (in_or_app _ _ _ (or_introl Hpin)))
      as [Hpne Hph].
    destruct (snd p) as [|c0 cs] eqn:Hsp; [contradiction|]. simpl.
    inversion Hph; assumption. }
  rewrite Hkeys.
  assert (Hs : map blk_Height (map fst selp) `sublist_of` zrange 0 (length blocks)).
  { rewrite <- Hh. apply sublist_map_list.
    eapply transitivity; [|exact Hsub]. rewrite map_app. apply prefix_sublist. }
  split.
  - eapply StronglySorted_sublist; [exact Hs | apply zrange_sorted].
  - apply List.Forall_forall. intros k Hk.
    assert (Hin : In k (zrange 0 (length blocks))).
    { apply list_elem_of_In. eapply elem_of_sublist; [apply list_elem_of_In; exact Hk | exact Hs]. }
    apply zrange_in in Hin. lia.
Qed.

Lemma convert_saves_increasing_heights_witness :
  (forall ht b, Fixture.chainAt ht = Some b -> blk_Height b = ht) /\
  StronglySorted Z.lt (map fst (snd (convertCommand Fixture.decode Fixture.newClaimID
     Fixture.isCoinBase Fixture.chainAt 3%Z Fixture.store_save [] 0%Z))) /\
  Forall (fun k => 0 <= k < Z.min 200000 3)%Z (map fst (snd (convertCommand Fixture.decode
     Fixture.newClaimID Fixture.isCoinBase Fixture.chainAt 3%Z Fixture.store_save [] 0%Z))).
Proof.
  assert (Hc : forall ht b, Fixture.chainAt ht = Some b -> blk_Height b = ht).
  { intros ht b H. unfold Fixture.chainAt in H.
    destruct (Z.eqb ht 0) eqn:H0; [apply Z.eqb_eq in H0; inversion H; subst; reflexivity|].
    destruct (Z.eqb ht 1) eqn:H1; [apply Z.eqb_eq in H1; inversion H; subst; reflexivity|].
    destruct (Z.eqb ht 2) eqn:H2; [apply Z.eqb_eq in H2; inversion H; subst; reflexivity|].
    discriminate. }
  split; [exact Hc|].
  exact (convert_saves_increasing_heights Fixture.decode Fixture.newClaimID Fixture.isCoinBase
           Fixture.chainAt 3%Z Fixture.store_save [] 0%Z Hc).
Defined.

(* ------------------------------------------------------------------ *)
(** ** The replay command over a height range *)

Section ReplayRange.

Context {T : Type} (ct : ClaimTrieOps T) (env : ReplayEnv T).

(** The effects of a setup that succeeds: the four deletions, then opening
    the chain repo, creating the trie, loading the block database and the
    chain. *)
Definition replaySetup : list Effect :=
  map EffRemoveAll derivedRepos ++
  [EffOpenRepo ChainRepo; EffNewClaimTrie; EffLoadBlocksDB; EffLoadChain].

(** When the setup succeeds, [replay --from F --to T] runs the loop over
    [max(0, T-F)] heights: a successful run loads exactly the batches of
    heights [F+1 .. T] in order and advances the trie once per height; with
    [T <= F] it loads nothing and succeeds at once. *)
Theorem replayCommand_replays_range (fromHeight toHeight : Z) (t : T) :
  (forall r, env_RemoveAll env r = true) -> env_OpenChainRepo env = true ->
  env_NewClaimTrie env = Some t -> env_LoadBlocksDB env = true ->
  env_LoadChain env = true ->
  exists s, fst (replayCommand ct env fromHeight toHeight) = replaySetup ++ s /\
    (snd (replayCommand ct env fromHeight toHeight) = None ->
     loadsOf s = zrange (fromHeight + 1) (Z.to_nat (toHeight - fromHeight)) /\
     appendsOf s = Z.to_nat (toHeight - fromHeight)) /\
    ((toHeight <= fromHeight)%Z -> replayCommand ct env fromHeight toHeight = (replaySetup, None)).
Proof.
  intros Hrm Hopen Htrie Hdb Hchain.
  unfold replayCommand.
  assert (Hr : removeRepos env derivedRepos [] = (map EffRemoveAll derivedRepos, None)).
  { unfold derivedRepos. simpl. rewrite !Hrm. reflexivity. }
  rewrite Hr, Hopen, Htrie, Hdb, Hchain. cbn [negb].
  replace ((((map EffRemoveAll derivedRepos ++ [EffOpenRepo ChainRepo]) ++ [EffNewClaimTrie])
              ++ [EffLoadBlocksDB]) ++ [EffLoadChain]) with replaySetup
    by (unfold replaySetup; rewrite <- !app_assoc; reflexivity).
  destruct (replayLoop ct env (Z.to_nat (toHeight - fromHeight)) fromHeight t replaySetup)
    as [effs [t'|e]] eqn:Hl.
  - destruct (replayLoop_loads _ _ _ _ _ _ _ _ Hl) as (s & -> & Hld).
    exists s. split; [reflexivity|]. split.
    + intros _. split; [exact Hld|].
      destruct (Z.to_nat (toHeight - fromHeight)) as [|n] eqn:Hn.
      * simpl in Hl. inversion Hl as [Heq]. 
        subst s. reflexivity.
      * destruct (replayLoop_success_matches_header_spec _ _ _ _ _ _ _ _ Hl) as [(s' & Hs' & Ha) _].
        apply app_inv_head in Hs'. subst s'. exact Ha.
    + intros Hle. replace (Z.to_nat (toHeight - fromHeight)) with 0%nat in Hl by lia.
      simpl in Hl. inversion Hl. reflexivity.
  - destruct (replayLoop_effects _ _ _ _ _ _ _ _ Hl) as (s & -> & _).
    exists s. split; [reflexivity|]. split; [discriminate|].
    intros Hle. replace (Z.to_nat (toHeight - fromHeight)) with 0%nat in Hl by lia.
    discriminate Hl.
Qed.

End ReplayRange.

Lemma replayCommand_replays_range_witness :
  exists s, fst (replayCommand Fixture.trie (Fixture.env Fixture.load) 0%Z 2%Z) =
              replaySetup ++ s /\
    (snd (replayCommand Fixture.trie (Fixture.env Fixture.load) 0%Z 2%Z) = None ->
     loadsOf s = zrange (0 + 1) (Z.to_nat (2 - 0)) /\ appendsOf s = Z.to_nat (2 - 0)) /\
    ((2 <= 0)%Z -> replayCommand Fixture.trie (Fixture.env Fixture.load) 0%Z 2%Z =
                   (replaySetup, None)).
Proof.
  apply (replayCommand_replays_range Fixture.trie (Fixture.env Fixture.load) 0%Z 2%Z 0%Z);
    reflexivity.
Defined.
